(** * keyword_can.py: the CSV cleaning and cannibalization pipeline

    A shallow embedding of [main] of [keyword_can.py], the Streamlit page
    that cleans a search-query report and ranks the queries whose traffic
    is split over several landing pages.

    What is modelled and how:
    - the input of the pipeline is the frame [pd.read_csv] returns: the
      column names and, for every record, the values of its cells as
      pandas holds them ([value]): a [str], an integer, a float64 or a
      boolean. A missing value (an empty cell, [NA], [null], [n/a] and
      the like) is the float NaN. [read_csv] gives a column one dtype:
      its cells are all integers, all floats, all booleans, or [str]
      with NaN for the missing ones;
    - integers of a column are int64: the sum of a group wraps around;
    - [pd.to_numeric(..., errors='coerce')] on a [str] and the cast of a
      finite float64 to int64 are given by the host ([Numeric]);
      [astype(int)] raises on an infinity;
    - [Percentage of Impressions] is an IEEE 754 binary64 number, computed
      with the operations of [SpecFloat] at precision 53, as numpy does;
    - [Total Keyword Impressions] is an int64 column after the merge, and
      a float64 column when a row has found no total;
    - [DataFrame.sort_values] uses an unstable sort by default, so the
      development is parametric in the sorting function: anything that
      returns a sorted permutation ([SortValues]);
    - the calls made on the Streamlit API after the form are the result of
      [main], in order. The nested [convert_df_to_csv] and the chart are
      not modelled beyond the table they are given. *)

From Stdlib Require Import ZArith List String Ascii Bool Lia.
From Stdlib Require Import Permutation Sorted SpecFloat DecimalString.
Import ListNotations.
Open Scope string_scope.
Open Scope list_scope.
Open Scope Z_scope.

(** ** binary64 arithmetic *)

Module Float64.

Definition prec : Z := 53.
Definition emax : Z := 1024.

(** Conversion of an integer column entry to float64 (round to nearest
    even), as numpy does before a true division. *)
Definition of_int (z : Z) : spec_float := binary_normalize prec emax z 0 false.

Definition div : spec_float -> spec_float -> spec_float := SFdiv prec emax.
Definition mul : spec_float -> spec_float -> spec_float := SFmul prec emax.
Definition ltb : spec_float -> spec_float -> bool := SFltb.
Definition leb : spec_float -> spec_float -> bool := SFleb.
Definition valid : spec_float -> bool := valid_binary prec emax.

Definition ten : spec_float := of_int 10.
Definition seventy_five : spec_float := of_int 75.
Definition hundred : spec_float := of_int 100.

Definition is_nan (x : spec_float) : bool :=
  match x with
  | S754_nan => true
  | _ => false
  end.

Definition is_inf (x : spec_float) : bool :=
  match x with
  | S754_infinity _ => true
  | _ => false
  end.

(** [np.ceil(x).astype(int)]: the least integer not below [x]; pandas
    raises on NaN and the infinities ([None]). *)
Definition ceil_int (x : spec_float) : option Z :=
  match x with
  | S754_zero _ => Some 0
  | S754_finite s m e =>
      let z := cond_Zopp s (Zpos m) in
      Some (if 0 <=? e then z * 2 ^ e else - ((- z) / 2 ^ (- e)))
  | _ => None
  end.

(** The integer part of a finite number, towards zero. *)
Definition trunc (x : spec_float) : option Z :=
  match x with
  | S754_zero _ => Some 0
  | S754_finite s m e =>
      Some (cond_Zopp s (if 0 <=? e then Zpos m * 2 ^ e else Zpos m / 2 ^ (- e)))
  | _ => None
  end.

(** The place of a number in the order of binary64, NaN below all. *)
Definition key (x : spec_float) : Z * Z * Z :=
  match x with
  | S754_nan => (-3, 0, 0)
  | S754_infinity true => (-2, 0, 0)
  | S754_finite true m e => (-1, - e, - Zpos m)
  | S754_zero _ => (0, 0, 0)
  | S754_finite false m e => (1, e, Zpos m)
  | S754_infinity false => (2, 0, 0)
  end.

End Float64.

(** ** int64 *)

Definition wrap64 (z : Z) : Z := (z + 2 ^ 63) mod 2 ^ 64 - 2 ^ 63.

Definition int64 (z : Z) : Prop := - 2 ^ 63 <= z < 2 ^ 63.

(** ** Python strings *)

Definition nonempty (s : string) : bool := negb (String.eqb s "").

(** [s.split(',')] *)
Fixpoint split_comma (s : string) : list string :=
  match s with
  | EmptyString => [EmptyString]
  | String c rest =>
      if Ascii.eqb c ","%char then EmptyString :: split_comma rest
      else match split_comma rest with
           | [] => [String c EmptyString]
           | seg :: segs => String c seg :: segs
           end
  end.

Definition utf8 (bytes : list nat) : list ascii := map ascii_of_nat bytes.

(** The characters for which [str.isspace()] holds, which [str.strip()]
    removes, in UTF-8: U+0009..U+000D, U+001C..U+0020, U+0085, U+00A0,
    U+1680, U+2000..U+200A, U+2028, U+2029, U+202F, U+205F, U+3000. *)
Definition whitespace : list (list ascii) :=
  map utf8
    [ [9]; [10]; [11]; [12]; [13]; [28]; [29]; [30]; [31]; [32];
      [194; 133]; [194; 160]; [225; 154; 128];
      [226; 128; 128]; [226; 128; 129]; [226; 128; 130]; [226; 128; 131];
      [226; 128; 132]; [226; 128; 133]; [226; 128; 134]; [226; 128; 135];
      [226; 128; 136]; [226; 128; 137]; [226; 128; 138];
      [226; 128; 168]; [226; 128; 169]; [226; 128; 175];
      [226; 129; 159]; [227; 128; 128] ]%nat.

Fixpoint drop_prefix (p s : list ascii) : option (list ascii) :=
  match p, s with
  | [], _ => Some s
  | a :: p', b :: s' => if Ascii.eqb a b then drop_prefix p' s' else None
  | _ :: _, [] => None
  end.

Fixpoint drop_any (ws : list (list ascii)) (s : list ascii) : option (list ascii) :=
  match ws with
  | [] => None
  | w :: ws' => match drop_prefix w s with
                | Some s' => Some s'
                | None => drop_any ws' s
                end
  end.

Fixpoint lstrip_loop (fuel : nat) (ws : list (list ascii)) (s : list ascii) : list ascii :=
  match fuel with
  | O => s
  | S fuel' => match drop_any ws s with
               | Some s' => lstrip_loop fuel' ws s'
               | None => s
               end
  end.

Definition lstrip (s : list ascii) : list ascii :=
  lstrip_loop (List.length s) whitespace s.

Definition rstrip (s : list ascii) : list ascii :=
  rev (lstrip_loop (List.length s) (map (@rev ascii) whitespace) (rev s)).

(** [s.strip()] *)
Definition strip (s : string) : string :=
  string_of_list_ascii (rstrip (lstrip (list_ascii_of_string s))).

(** [str(z)] for an integer. *)
Definition str (z : Z) : string := NilZero.string_of_int (Z.to_int z).

(** ** Frames and rows *)

(** A value of a cell. *)
Inductive value :=
| Str (s : string)
| Int (z : Z)
| Float (x : spec_float)
| Bool (b : bool).

Definition NaN : value := Float S754_nan.

(** [pd.isna] *)
Definition isna (v : value) : bool :=
  match v with
  | Float S754_nan => true
  | _ => false
  end.

(** The value as a key of a hash table of pandas: the two zeros are one
    key (and all the NaN are one, there being one NaN here). *)
Definition hashable (v : value) : value :=
  match v with
  | Float (S754_zero _) => Float (S754_zero false)
  | _ => v
  end.

Definition value_eq_dec (a b : value) : {a = b} + {a <> b}.
Proof. repeat decide equality. Defined.

(** Equality of two cells as keys. *)
Definition value_eqb (a b : value) : bool :=
  if value_eq_dec (hashable a) (hashable b) then true else false.

(** The order [sort_values] and [groupby] put on a column. *)
Definition value_leb (a b : value) : bool :=
  match a, b with
  | Str s, Str t => String.leb s t
  | Int x, Int y => x <=? y
  | Bool x, Bool y => implb x y
  | Float x, Float y =>
      if Float64.is_nan y then true
      else if Float64.is_nan x then false
      else Float64.leb x y
  | Bool _, _ => true
  | _, Bool _ => false
  | Int _, _ => true
  | _, Int _ => false
  | Str _, _ => true
  | _, Str _ => false
  end.

Record DataFrame := { columns : list string; records : list (list value) }.

(** The cell of a record under a column name; a record that is short of
    cells has NaN there. *)
Fixpoint loc (cols : list string) (rec : list value) (col : string) : value :=
  match cols, rec with
  | c :: cs, v :: vs => if String.eqb c col then v else loc cs vs col
  | _, _ => NaN
  end.

(** A row once [Impressions] is an integer column. *)
Record Row := {
  Query : value;
  Landing_Page : value;
  Impressions : Z
}.

(** An entry of the column [Total Keyword Impressions]. *)
Inductive total :=
| Int64 (z : Z)
| Float64 (x : spec_float).

(** A row with the two derived columns. *)
Record Scored := {
  base : Row;
  Total_Keyword_Impressions : total;
  Percentage_of_Impressions : spec_float
}.

(** A row of the final table, in the order of its columns. *)
Record Cleaned := {
  out_Landing_Page : value;
  out_Query : value;
  out_Impressions : Z;
  out_Total_Keyword_Impressions : total;
  out_Percentage_of_Impressions : string
}.

(** A row of the ranking. *)
Record Cannibalized := {
  c_Query : value;
  c_Landing_Page : Z;
  c_Total_Keyword_Impressions : total
}.

(** ** The host: numbers and sorting *)

(** [pd.to_numeric(s, errors='coerce')] on a [str] (NaN when [s] is no
    number) and the cast of a finite float64 to int64, which is the
    integer part wherever that is an int64. *)
Class Numeric := {
  to_numeric : string -> spec_float;
  astype_int : spec_float -> Z;
  astype_int_range : forall x, int64 (astype_int x);
  astype_int_trunc : forall x z,
      Float64.trunc x = Some z -> int64 z -> astype_int x = z
}.

(** [sort_values]: some sorted permutation of its input. *)
Class SortValues := {
  sort_by : forall {A : Type}, (A -> A -> bool) -> list A -> list A;
  sort_by_perm : forall (A : Type) (leb : A -> A -> bool) (l : list A),
      Permutation (sort_by leb l) l;
  sort_by_sorted : forall (A : Type) (leb : A -> A -> bool),
      (forall x y, leb x y = true \/ leb y x = true) ->
      (forall x y z, leb x y = true -> leb y z = true -> leb x z = true) ->
      forall l, StronglySorted (fun x y => leb x y = true) (sort_by leb l)
}.

(** Insertion sort, the instance used to run the model. *)
Fixpoint insert_by {A : Type} (leb : A -> A -> bool) (x : A) (l : list A) : list A :=
  match l with
  | [] => [x]
  | y :: l' => if leb x y then x :: l else y :: insert_by leb x l'
  end.

Fixpoint insertion_sort {A : Type} (leb : A -> A -> bool) (l : list A) : list A :=
  match l with
  | [] => []
  | x :: l' => insert_by leb x (insertion_sort leb l')
  end.

(** The place of a total in the order of its column: integers by their
    value, floats by theirs, NaN below all. *)
Definition total_key (t : total) : Z * (Z * Z * Z) :=
  match t with
  | Int64 z => (0, (z, 0, 0))
  | Float64 x => (1, Float64.key x)
  end.

Definition key_compare (a b : Z * (Z * Z * Z)) : comparison :=
  let '(a0, (a1, a2, a3)) := a in
  let '(b0, (b1, b2, b3)) := b in
  match a0 ?= b0 with
  | Eq => match a1 ?= b1 with
          | Eq => match a2 ?= b2 with
                  | Eq => a3 ?= b3
                  | c => c
                  end
          | c => c
          end
  | c => c
  end.

(** Descending order on the column of the totals, NaN last. *)
Definition desc_total (a b : total) : bool :=
  match key_compare (total_key b) (total_key a) with
  | Gt => false
  | _ => true
  end.

(** ** Helpers on columns *)

(** The exact sum of integers. *)
Fixpoint exact_sum (l : list Z) : Z :=
  match l with
  | [] => 0
  | x :: l' => x + exact_sum l'
  end.

(** [sum()] of an int64 column: every addition wraps around. *)
Fixpoint sum (l : list Z) : Z :=
  match l with
  | [] => 0
  | x :: l' => wrap64 (x + sum l')
  end.

Definition mem (s : string) (l : list string) : bool := existsb (String.eqb s) l.

Definition mem_value (v : value) (l : list value) : bool :=
  if in_dec value_eq_dec v l then true else false.

(** The distinct keys of a column, in order of first appearance. *)
Fixpoint unique_from (seen : list value) (l : list value) : list value :=
  match l with
  | [] => []
  | x :: l' => if mem_value x seen then unique_from seen l'
               else x :: unique_from (x :: seen) l'
  end.

Definition unique (l : list value) : list value := unique_from [] (map hashable l).

(** The keys of a column that [groupby] and ['nunique'] see: NaN is
    dropped. *)
Definition keys (l : list value) : list value :=
  unique (filter (fun v => negb (isna v)) l).

Definition shape0 {A : Type} (df : list A) : Z := Z.of_nat (List.length df).

(** ** The pipeline of [main] *)

(** What [pd.read_csv(uploaded_file)] does on the uploaded file. *)
Inductive UploadedFile :=
| Raises_EmptyDataError
| Raises_ParserError
| Raises_Exception (e : string)
| Reads (df : DataFrame).

(** The calls on the Streamlit API that follow the form. *)
Inductive st :=
| st_error (msg : string)
| st_info (msg : string)
| st_success (msg : string)
| st_subheader (msg : string)
| st_dataframe (df : list Cleaned)
| st_download_button (data : list Cleaned)
| st_plotly_chart (top : list Cannibalized).

(** The variables [main] holds when processing has run to its end. *)
Record Processed := {
  dropped_non_numeric : Z;
  queries_to_remove : list string;
  dropped_low_impressions : Z;
  df : list Cleaned;
  top_cannibalized : list Cannibalized
}.

(** The exceptions processing raises: [astype(int)] on a value that is
    not finite, and the lookup of a column that is not there. *)
Inductive exception :=
| IntCastingNaNError
| KeyError.

Definition exception_text (e : exception) : string :=
  match e with
  | IntCastingNaNError => "Cannot convert non-finite values (NA or inf) to integer"
  | KeyError => "'Total Keyword Impressions'"
  end.

(** How the [with st.spinner] block ends. *)
Inductive Outcome :=
| Stopped (missing_columns : list string)
| Raised (e : exception)
| Completed (p : Processed).

Definition required_columns : list string := ["Impressions"; "Query"; "Landing Page"].

(** [[col for col in required_columns if col not in df.columns]] *)
Definition missing_columns (frame : DataFrame) : list string :=
  filter (fun col => negb (mem col (columns frame))) required_columns.

(** [[query.strip() for query in query_to_remove.split(',') if query.strip()]],
    under [if query_to_remove:], and [[]] otherwise. *)
Definition parse_queries_to_remove (query_to_remove : string) : list string :=
  if nonempty query_to_remove
  then map strip (filter (fun query => nonempty (strip query)) (split_comma query_to_remove))
  else [].

(** [isin] on one cell, for a list of [str]: a cell that is no [str]
    is equal to none. *)
Definition isin (v : value) (terms : list string) : bool :=
  match v with
  | Str s => mem s terms
  | _ => false
  end.

(** [df[~df['Query'].isin(queries_to_remove)]], applied when the list is
    not empty. *)
Definition remove_queries (terms : list string) (rows : list Row) : list Row :=
  match terms with
  | [] => rows
  | _ :: _ => filter (fun r => negb (isin (Query r) terms)) rows
  end.

(** [df[df['Impressions'] >= 10]] *)
Definition drop_low_impressions (rows : list Row) : list Row :=
  filter (fun r => 10 <=? Impressions r) rows.

(** The values lines 68 to 78 leave behind. *)
Record Filtered := {
  f_queries_to_remove : list string;
  f_before_filter : Z;
  f_df : list Row;
  f_dropped_low_impressions : Z
}.

Definition filter_exclude (query_to_remove : string) (rows : list Row) : Filtered :=
  let queries_to_remove := parse_queries_to_remove query_to_remove in
  let rows1 := remove_queries queries_to_remove rows in
  let before_filter := shape0 rows1 in
  let rows2 := drop_low_impressions rows1 in
  {| f_queries_to_remove := queries_to_remove;
     f_before_filter := before_filter;
     f_df := rows2;
     f_dropped_low_impressions := before_filter - shape0 rows2 |}.

(** The sum of [Impressions] over the rows of a query, as [groupby] and
    [sum] give it. *)
Definition total_of (rows : list Row) (q : value) : Z :=
  sum (map Impressions (filter (fun r => value_eqb (Query r) q) rows)).

(** [(df['Impressions'] / df['Total Keyword Impressions']) * 100] *)
Definition percentage (impressions : Z) (t : total) : spec_float :=
  match t with
  | Int64 z => Float64.mul (Float64.div (Float64.of_int impressions) (Float64.of_int z))
                           Float64.hundred
  | Float64 x => Float64.mul (Float64.div (Float64.of_int impressions) x) Float64.hundred
  end.

(** [pd.merge(df, total_impressions, on='Query', how='left')]: every row
    with the totals under its key, or with none. *)
Definition merge_left (rows : list Row) (total_impressions : list (value * Z))
  : list (Row * option Z) :=
  flat_map
    (fun r =>
       match filter (fun kv => value_eqb (fst kv) (Query r)) total_impressions with
       | [] => [ (r, None) ]
       | matches => map (fun kv => (r, Some (snd kv))) matches
       end)
    rows.

Definition found (m : Row * option Z) : bool :=
  match snd m with
  | Some _ => true
  | None => false
  end.

(** The merged column: int64 when every row has found a total, float64
    with NaN where none was found otherwise; and the percentage computed
    on it. *)
Definition total_column (merged : list (Row * option Z)) : list Scored :=
  let every_row_found := forallb found merged in
  map (fun m =>
         let t := if every_row_found
                  then match snd m with
                       | Some z => Int64 z
                       | None => Float64 S754_nan
                       end
                  else match snd m with
                       | Some z => Float64 (Float64.of_int z)
                       | None => Float64 S754_nan
                       end in
         {| base := fst m;
            Total_Keyword_Impressions := t;
            Percentage_of_Impressions := percentage (Impressions (fst m)) t |})
      merged.

Definition same_pair (a b : Scored) : bool :=
  value_eqb (Query (base a)) (Query (base b)) &&
  value_eqb (Landing_Page (base a)) (Landing_Page (base b)).

(** [df.drop_duplicates(subset=['Query', 'Landing Page'])]: a row stays
    when no row before it has its pair. *)
Fixpoint drop_duplicates_from (seen : list Scored) (rows : list Scored) : list Scored :=
  match rows with
  | [] => []
  | r :: rows' =>
      if existsb (same_pair r) seen then drop_duplicates_from seen rows'
      else r :: drop_duplicates_from (r :: seen) rows'
  end.

Definition drop_duplicates (rows : list Scored) : list Scored :=
  drop_duplicates_from [] rows.

(** [(df[p] > 10) & (df[p] < 75)] *)
Definition in_band (x : spec_float) : bool :=
  Float64.ltb Float64.ten x && Float64.ltb x Float64.seventy_five.

Definition share_band (rows : list Scored) : list Scored :=
  filter (fun r => in_band (Percentage_of_Impressions r)) rows.

(** [np.ceil(p).astype(int).astype(str) + '%'] on one row, together with
    the reordering of the columns; [None] where [astype(int)] raises. *)
Definition render (r : Scored) : option Cleaned :=
  match Float64.ceil_int (Percentage_of_Impressions r) with
  | Some z =>
      Some {| out_Landing_Page := Landing_Page (base r);
              out_Query := Query (base r);
              out_Impressions := Impressions (base r);
              out_Total_Keyword_Impressions := Total_Keyword_Impressions r;
              out_Percentage_of_Impressions := str z ++ "%" |}
  | None => None
  end.

Fixpoint render_all (rows : list Scored) : option (list Cleaned) :=
  match rows with
  | [] => Some []
  | r :: rows' =>
      match render r, render_all rows' with
      | Some c, Some cs => Some (c :: cs)
      | _, _ => None
      end
  end.

Definition total_isna (t : total) : bool :=
  match t with
  | Float64 S754_nan => true
  | _ => false
  end.

(** The ['first'] aggregation: the first value of the group that is not
    missing. *)
Fixpoint first (l : list total) : total :=
  match l with
  | [] => Float64 S754_nan
  | t :: l' => if total_isna t then first l' else t
  end.

Definition group (q : value) (table : list Cleaned) : list Cleaned :=
  filter (fun c => value_eqb (out_Query c) q) table.

(** ['nunique'] of [Landing Page] within a group: NaN is not counted. *)
Definition nunique (q : value) (table : list Cleaned) : Z :=
  shape0 (keys (map out_Landing_Page (group q table))).

(** ** Notions used in the statements *)

(** The pair that identifies a row for deduplication. *)
Definition pair_of (r : Scored) : value * value :=
  (hashable (Query (base r)), hashable (Landing_Page (base r))).

Definition key_of (c : Cleaned) : value * value :=
  (hashable (out_Query c), hashable (out_Landing_Page c)).

(** The total a row is given when the table [rows] is merged with its
    totals. *)
Definition total_in (rows : list Row) (r : Row) : total :=
  if forallb (fun x => negb (isna (Query x))) rows
  then Int64 (total_of rows (Query r))
  else if isna (Query r) then Float64 S754_nan
       else Float64 (Float64.of_int (total_of rows (Query r))).

(** A row with the total and the percentage of its query in [rows]. *)
Definition score (rows : list Row) (r : Row) : Scored :=
  {| base := r;
     Total_Keyword_Impressions := total_in rows r;
     Percentage_of_Impressions := percentage (Impressions r) (total_in rows r) |}.

Section Pipeline.

Context {numeric : Numeric} {sorting : SortValues}.

(** The outcome of lines 58 to 61 on one cell of [Impressions]. *)
Inductive coerced :=
| Dropped
| NonFinite
| Number (z : Z).

Definition of_float (x : spec_float) : coerced :=
  match x with
  | S754_nan => Dropped
  | S754_infinity _ => NonFinite
  | _ => Number (astype_int x)
  end.

(** [pd.to_numeric(..., errors='coerce')], [dropna] and [astype(int)] on
    one cell: a NaN is dropped, an infinity makes [astype(int)] raise,
    an integer stays (an unsigned one wraps into int64). *)
Definition coerce (v : value) : coerced :=
  match v with
  | Int z => Number (wrap64 z)
  | Bool b => Number (if b then 1 else 0)
  | Float x => of_float x
  | Str s => of_float (to_numeric s)
  end.

Definition impressions_cell (frame : DataFrame) (rec : list value) : value :=
  loc (columns frame) rec "Impressions".

(** The rows [dropna] keeps, typed. *)
Definition numeric_rows (frame : DataFrame) : list Row :=
  flat_map
    (fun rec =>
       match coerce (impressions_cell frame rec) with
       | Number z => [ {| Query := loc (columns frame) rec "Query";
                          Landing_Page := loc (columns frame) rec "Landing Page";
                          Impressions := z |} ]
       | _ => []
       end)
    (records frame).

Definition non_finite (frame : DataFrame) (rec : list value) : bool :=
  match coerce (impressions_cell frame rec) with
  | NonFinite => true
  | _ => false
  end.

(** Lines 58 to 61: [None] when [astype(int)] raises. *)
Definition normalize (frame : DataFrame) : option (list Row) :=
  if existsb (non_finite frame) (records frame) then None
  else Some (numeric_rows frame).

(** [df.sort_values(by='Impressions', ascending=False)] *)
Definition sort_impressions (rows : list Row) : list Row :=
  sort_by (fun a b => Impressions b <=? Impressions a) rows.

(** [df.groupby('Query')['Impressions'].sum().reset_index()] *)
Definition groupby_sum (rows : list Row) : list (value * Z) :=
  map (fun q => (q, total_of rows q))
      (sort_by value_leb (keys (map Query rows))).

(** Lines 81 to 86. *)
Definition with_totals (rows : list Row) : list Scored :=
  total_column (merge_left rows (groupby_sum rows)).

(** Lines 108 to 113. *)
Definition rank (table : list Cleaned) : list Cannibalized :=
  let cannibalization :=
    map (fun q => {| c_Query := q;
                     c_Landing_Page := nunique q table;
                     c_Total_Keyword_Impressions :=
                       first (map out_Total_Keyword_Impressions (group q table)) |})
        (sort_by value_leb (keys (map out_Query table))) in
  let cannibalization := filter (fun c => 1 <? c_Landing_Page c) cannibalization in
  firstn 10 (sort_by (fun a b => desc_total (c_Total_Keyword_Impressions a)
                                            (c_Total_Keyword_Impressions b))
                     cannibalization).

(** The rows at the three points the table is named below (none when
    normalization raises). *)
Definition normalized (frame : DataFrame) : list Row :=
  match normalize frame with
  | Some rows => rows
  | None => []
  end.

Definition retained (frame : DataFrame) (query_to_remove : string) : list Row :=
  f_df (filter_exclude query_to_remove (sort_impressions (normalized frame))).

Definition deduplicated (frame : DataFrame) (query_to_remove : string) : list Scored :=
  drop_duplicates (with_totals (retained frame query_to_remove)).

(** Lines 47 to 113, after [pd.read_csv] has returned [frame]. A column
    [Total Keyword Impressions] that is in the file already is given a
    suffix by the merge, as is the new one, and line 86 finds none under
    the name. Line 101 raises as line 61 does, on a percentage that is
    not finite. *)
Definition process (frame : DataFrame) (query_to_remove : string) : Outcome :=
  match missing_columns frame with
  | _ :: _ => Stopped (missing_columns frame)
  | [] =>
      let initial_row_count := shape0 (records frame) in
      match normalize frame with
      | None => Raised IntCastingNaNError
      | Some rows =>
          let dropped_non_numeric := initial_row_count - shape0 rows in
          let rows := sort_impressions rows in
          let fe := filter_exclude query_to_remove rows in
          if mem "Total Keyword Impressions" (columns frame) then Raised KeyError
          else
            let scored := with_totals (f_df fe) in
            let scored := drop_duplicates scored in
            let scored := share_band scored in
            let scored :=
              sort_by (fun a b => value_leb (Query (base a)) (Query (base b))) scored in
            match render_all scored with
            | None => Raised IntCastingNaNError
            | Some table =>
                let table :=
                  sort_by (fun a b => desc_total (out_Total_Keyword_Impressions a)
                                                 (out_Total_Keyword_Impressions b))
                          table in
                Completed {| dropped_non_numeric := dropped_non_numeric;
                             queries_to_remove := f_queries_to_remove fe;
                             dropped_low_impressions := f_dropped_low_impressions fe;
                             df := table;
                             top_cannibalized := rank table |}
            end
      end
  end.

(** [main] once the form is there: what is shown for a submission. *)
Definition main (submit_button : bool) (uploaded_file : option UploadedFile)
  (query_to_remove : string) : list st :=
  if submit_button then
    match uploaded_file with
    | Some (Reads frame) =>
        match process frame query_to_remove with
        | Stopped missing =>
            [ st_error ("❌ Missing required columns: " ++ String.concat ", " missing) ]
        | Raised e =>
            [ st_error ("❌ An unexpected error occurred: " ++ exception_text e) ]
        | Completed p =>
            [ st_success "✅ Data processing complete!";
              st_subheader "📈 Final Cleaned Data";
              st_dataframe (df p);
              st_download_button (df p) ]
            ++ match top_cannibalized p with
               | _ :: _ => [ st_subheader "📊 Top 10 Cannibalized Keywords";
                             st_plotly_chart (top_cannibalized p) ]
               | [] => [ st_info "ℹ️ No cannibalized keywords found in the data." ]
               end
        end
    | Some Raises_EmptyDataError => [ st_error "❌ Error: The uploaded file is empty." ]
    | Some Raises_ParserError => [ st_error "❌ Error: The uploaded file could not be parsed." ]
    | Some (Raises_Exception e) => [ st_error ("❌ An unexpected error occurred: " ++ e) ]
    | None => [ st_error "❌ Please upload a CSV file before submitting." ]
    end
  else [ st_info "📌 Please fill out the configuration and upload your CSV file to get started." ].

End Pipeline.

(** ** Predicates and relations of the statements *)

(** A cell of [Impressions] that is no number: missing, or a [str] that
    [pd.to_numeric] cannot read. *)
Definition not_a_number `{Numeric} (v : value) : bool :=
  match v with
  | Str s => Float64.is_nan (to_numeric s)
  | Float x => Float64.is_nan x
  | Int _ | Bool _ => false
  end.

(** A cell of [Impressions] that reads as an infinity. *)
Definition infinite `{Numeric} (v : value) : bool :=
  match v with
  | Str s => Float64.is_inf (to_numeric s)
  | Float x => Float64.is_inf x
  | Int _ | Bool _ => false
  end.

(** The number of rows the exclusion terms match. *)
Definition excluded (query_to_remove : string) (rows : list Row) : Z :=
  shape0 (filter (fun r => isin (Query r) (parse_queries_to_remove query_to_remove)) rows).

(** The order of the keys, in full. *)
Definition key_le (a b : Z * (Z * Z * Z)) : Prop :=
  let '(a0, (a1, a2, a3)) := a in
  let '(b0, (b1, b2, b3)) := b in
  a0 < b0 \/ (a0 = b0 /\ (a1 < b1 \/ (a1 = b1 /\ (a2 < b2 \/ (a2 = b2 /\ a3 <= b3))))).

(** Descending order of two totals of one column, none of them NaN. *)
Definition total_le (a b : total) : Prop :=
  match a, b with
  | Int64 x, Int64 y => x <= y
  | Float64 x, Float64 y => Float64.leb x y = true
  | _, _ => False
  end.

Definition total_ge (a b : Cannibalized) : Prop :=
  total_le (c_Total_Keyword_Impressions b) (c_Total_Keyword_Impressions a).

Definition out_total_ge (a b : Cleaned) : Prop :=
  total_le (out_Total_Keyword_Impressions b) (out_Total_Keyword_Impressions a).



(** What is shown when processing ends with the table [table] and no
    query is cannibalized. *)
Definition shown_without_ranking (table : list Cleaned) : list st :=
  [ st_success "✅ Data processing complete!";
    st_subheader "📈 Final Cleaned Data";
    st_dataframe table;
    st_download_button table;
    st_info "ℹ️ No cannibalized keywords found in the data." ].

Definition is_error (call : st) : bool :=
  match call with
  | st_error _ => true
  | _ => false
  end.

(** A text made of words of [ws], one after the other. *)
Inductive made_of (ws : list (list ascii)) : list ascii -> Prop :=
| made_of_nil : made_of ws []
| made_of_app : forall w s, In w ws -> made_of ws s -> made_of ws (w ++ s).

(** A text made of whitespace characters only. *)
Definition blank : list ascii -> Prop := made_of whitespace.

Definition starts_with (w s : list ascii) : Prop := exists rest, s = w ++ rest.

Definition ends_with (w s : list ascii) : Prop := exists rest, s = rest ++ w.

(** [t] is [s] without the whitespace at its two ends. *)
Definition trimmed (s t : string) : Prop :=
  (exists pre post,
     list_ascii_of_string s = pre ++ list_ascii_of_string t ++ post /\
     blank pre /\ blank post) /\
  (forall w, In w whitespace -> ~ starts_with w (list_ascii_of_string t)) /\
  (forall w, In w whitespace -> ~ ends_with w (list_ascii_of_string t)).

(** ** Instances to run the model on *)

(** A host that reads plain decimal integers and [inf], and casts as
    x86-64 does. *)
Fixpoint digits_value (acc : Z) (s : string) : option Z :=
  match s with
  | EmptyString => Some acc
  | String c rest =>
      let n := Z.of_nat (nat_of_ascii c) in
      if (48 <=? n) && (n <=? 57) then digits_value (10 * acc + (n - 48)) rest else None
  end.

Definition decimal_to_numeric (s : string) : spec_float :=
  if String.eqb s "inf" then S754_infinity false
  else match s with
       | EmptyString => S754_nan
       | String "-"%char (String c rest) =>
           match digits_value 0 (String c rest) with
           | Some z => Float64.of_int (- z)
           | None => S754_nan
           end
       | _ => match digits_value 0 s with
              | Some z => Float64.of_int z
              | None => S754_nan
              end
       end.

Definition x86_astype_int (x : spec_float) : Z :=
  match Float64.trunc x with
  | Some z => if (- 2 ^ 63 <=? z) && (z <? 2 ^ 63) then z else - 2 ^ 63
  | None => - 2 ^ 63
  end.

Definition report_columns : list string := ["Query"; "Landing Page"; "Impressions"].

(** The report of the first scenario of the specification. *)
Definition shoes_report : DataFrame :=
  {| columns := report_columns;
     records := [ [Str "shoes"; Str "/a"; Int 60];
                  [Str "shoes"; Str "/b"; Int 40];
                  [Str "BrandX"; Str "/c"; Int 1000] ] |}.

(** A report with a repeated pair and a cell that is not a number. *)
Definition repeated_report : DataFrame :=
  {| columns := report_columns;
     records := [ [Str "boots"; Str "/a"; Str "20"];
                  [Str "boots"; Str "/b"; Str "50"];
                  [Str "boots"; Str "/a"; Str "30"];
                  [Str "boots"; Str "/c"; Str "abc"] ] |}.

(** A report whose only row has no numeric [Impressions]. *)
Definition unusable_report : DataFrame :=
  {| columns := report_columns; records := [ [Str "shoes"; Str "/a"; Str "abc"] ] |}.

(** A report without two of the required columns. *)
Definition narrow_report : DataFrame :=
  {| columns := ["Query"; "Clicks"]; records := [ [Str "shoes"; Int 3] ] |}.

(** ** Reports and what processing leaves for them *)

Definition shoes_a : Cleaned :=
  {| out_Landing_Page := Str "/a"; out_Query := Str "shoes"; out_Impressions := 60;
     out_Total_Keyword_Impressions := Int64 100;
     out_Percentage_of_Impressions := "60%" |}.

Definition shoes_b : Cleaned :=
  {| out_Landing_Page := Str "/b"; out_Query := Str "shoes"; out_Impressions := 40;
     out_Total_Keyword_Impressions := Int64 100;
     out_Percentage_of_Impressions := "40%" |}.

Definition shoes_ranked : Cannibalized :=
  {| c_Query := Str "shoes"; c_Landing_Page := 2;
     c_Total_Keyword_Impressions := Int64 100 |}.

(** What processing leaves for [shoes_report] with the term [BrandX]. *)
Definition shoes_processed : Processed :=
  {| dropped_non_numeric := 0;
     queries_to_remove := ["BrandX"];
     dropped_low_impressions := 0;
     df := [shoes_a; shoes_b];
     top_cannibalized := [shoes_ranked] |}.

(** What processing leaves for [repeated_report] with no term. *)
Definition repeated_processed : Processed :=
  {| dropped_non_numeric := 1;
     queries_to_remove := [];
     dropped_low_impressions := 0;
     df := [ {| out_Landing_Page := Str "/b"; out_Query := Str "boots";
                out_Impressions := 50;
                out_Total_Keyword_Impressions := Int64 100;
                out_Percentage_of_Impressions := "50%" |};
             {| out_Landing_Page := Str "/a"; out_Query := Str "boots";
                out_Impressions := 30;
                out_Total_Keyword_Impressions := Int64 100;
                out_Percentage_of_Impressions := "30%" |} ];
     top_cannibalized := [ {| c_Query := Str "boots"; c_Landing_Page := 2;
                              c_Total_Keyword_Impressions := Int64 100 |} ] |}.

Definition brandx_row : Row :=
  {| Query := Str "BrandX"; Landing_Page := Str "/c"; Impressions := 1000 |}.

Definition brandx_shoes_row : Row :=
  {| Query := Str "BrandX shoes"; Landing_Page := Str "/a"; Impressions := 20 |}.

Definition lower_case_row : Row :=
  {| Query := Str "brandx"; Landing_Page := Str "/b"; Impressions := 30 |}.

(** A row of a [Query] column that was read as integers. *)
Definition number_row : Row :=
  {| Query := Int 123; Landing_Page := Str "/n"; Impressions := 40 |}.



(** A report with an infinity among the impressions. *)
Definition infinity_report : DataFrame :=
  {| columns := report_columns;
     records := [ [Str "shoes"; Str "/a"; Str "inf"];
                  [Str "shoes"; Str "/b"; Str "abc"] ] |}.

(** The cleaned table of an earlier run, with no row, uploaded again. *)
Definition cleaned_report : DataFrame :=
  {| columns := ["Landing Page"; "Query"; "Impressions"; "Total Keyword Impressions";
                 "Percentage of Impressions"];
     records := [] |}.

(** A report with a missing landing page, and one with a missing query. *)
Definition missing_page_report : DataFrame :=
  {| columns := report_columns;
     records := [ [Str "shoes"; Str "/a"; Int 60]; [Str "shoes"; NaN; Int 40] ] |}.

Definition missing_query_report : DataFrame :=
  {| columns := report_columns;
     records := [ [Str "shoes"; Str "/a"; Int 60]; [Str "shoes"; Str "/b"; Int 40];
                  [NaN; Str "/c"; Int 50] ] |}.

(** A report whose queries are all numbers, read as int64. *)
Definition number_report : DataFrame :=
  {| columns := report_columns;
     records := [ [Int 123; Str "/a"; Int 60]; [Int 123; Str "/b"; Int 40] ] |}.

(** One query whose impressions add up to 2^64 + 18. *)
Definition wrapped_report : DataFrame :=
  {| columns := report_columns;
     records := [ [Str "q"; Str "/a"; Int 4611686018427387904];
                  [Str "q"; Str "/b"; Int 4611686018427387904];
                  [Str "q"; Str "/c"; Int 4611686018427387904];
                  [Str "q"; Str "/d"; Int 4611686018427387894];
                  [Str "q"; Str "/e"; Int 16];
                  [Str "q"; Str "/f"; Int 12] ] |}.

(** Eleven queries, each with two landing pages of equal impressions:
    10 and 10 for [q01], up to 110 and 110 for [q11]. *)
Definition eleven_queries : list (string * Z) :=
  [ ("q01", 10); ("q02", 20); ("q03", 30); ("q04", 40); ("q05", 50); ("q06", 60);
    ("q07", 70); ("q08", 80); ("q09", 90); ("q10", 100); ("q11", 110) ].

Definition eleven_report : DataFrame :=
  {| columns := report_columns;
     records :=
       flat_map (fun qi => [ [Str (fst qi); Str "/a"; Int (snd qi)];
                             [Str (fst qi); Str "/b"; Int (snd qi)] ])
                eleven_queries |}.

Definition eleven_row (page : string) (qi : string * Z) : Cleaned :=
  {| out_Landing_Page := Str page; out_Query := Str (fst qi);
     out_Impressions := snd qi;
     out_Total_Keyword_Impressions := Int64 (2 * snd qi);
     out_Percentage_of_Impressions := "50%" |}.

Definition eleven_ranked (qi : string * Z) : Cannibalized :=
  {| c_Query := Str (fst qi); c_Landing_Page := 2;
     c_Total_Keyword_Impressions := Int64 (2 * snd qi) |}.

(** What processing leaves for [eleven_report]: the queries by
    descending total, and the ten first of them ranked. *)
Definition eleven_processed : Processed :=
  {| dropped_non_numeric := 0;
     queries_to_remove := [];
     dropped_low_impressions := 0;
     df := flat_map (fun qi => [eleven_row "/a" qi; eleven_row "/b" qi])
                    (rev eleven_queries);
     top_cannibalized := map eleven_ranked (firstn 10 (rev eleven_queries)) |}.

Definition q11_ranked : Cannibalized := eleven_ranked ("q11", 110).

Definition q01_a : Cleaned := eleven_row "/a" ("q01", 10).

(** * Facts *)

(** ** binary64: the result of a rounded operation is a valid float *)

Module Float64Facts.
Import Float64.

Lemma digits2_pos_size p : digits2_pos p = Pos.size p.
Proof. induction p; simpl; congruence. Qed.

Lemma Zdigits2_log2 m : 0 < m -> Zdigits2 m = Z.log2 m + 1.
Proof.
  destruct m as [|p|p]; try lia. intros _. simpl.
  rewrite digits2_pos_size. destruct p; simpl; lia.
Qed.

Lemma Zdigits2_nonneg m : 0 <= Zdigits2 m.
Proof. destruct m; simpl; lia. Qed.

Lemma Zdigits2_bounds m : 0 < m -> 2 ^ (Zdigits2 m - 1) <= m < 2 ^ Zdigits2 m.
Proof.
  intros H. rewrite (Zdigits2_log2 m H).
  replace (Z.log2 m + 1 - 1) with (Z.log2 m) by lia.
  replace (Z.log2 m + 1) with (Z.succ (Z.log2 m)) by lia.
  apply Z.log2_spec; assumption.
Qed.

Lemma Zdigits2_mono a b : 0 <= a <= b -> Zdigits2 a <= Zdigits2 b.
Proof.
  intros [Ha Hab]. destruct (Z.eq_dec a 0) as [->|Hn].
  - apply Zdigits2_nonneg.
  - rewrite !Zdigits2_log2 by lia. pose proof (Z.log2_le_mono a b Hab). lia.
Qed.

Lemma Zdigits2_div_pow2 m n :
  0 < m -> 0 <= n -> 0 < m / 2 ^ n -> Zdigits2 (m / 2 ^ n) = Zdigits2 m - n.
Proof.
  intros Hm Hn Hq. rewrite !Zdigits2_log2 by assumption.
  rewrite <- Z.shiftr_div_pow2 by assumption.
  rewrite Z.log2_shiftr by assumption.
  assert (n <= Z.log2 m).
  { destruct (Z_le_gt_dec n (Z.log2 m)) as [?|Hgt]; [assumption|exfalso].
    pose proof (Z.log2_spec m Hm) as [_ Hlt].
    assert (m < 2 ^ n).
    { eapply Z.lt_le_trans; [exact Hlt|]. apply Z.pow_le_mono_r; lia. }
    rewrite Z.div_small in Hq by lia. lia. }
  lia.
Qed.

Lemma shr_1_m mrs : 0 <= shr_m mrs -> shr_m (shr_1 mrs) = shr_m mrs / 2.
Proof.
  destruct mrs as [m r s]. simpl. intros Hm.
  destruct m as [|p|p]; try lia; try reflexivity.
  destruct p; simpl shr_m.
  - rewrite Pos2Z.inj_xI. apply Z.div_unique with 1; lia.
  - rewrite Pos2Z.inj_xO. apply Z.div_unique with 0; lia.
  - reflexivity.
Qed.

Lemma iter_shr_1_m p : forall mrs,
  0 <= shr_m mrs -> shr_m (iter_pos shr_1 p mrs) = shr_m mrs / 2 ^ Zpos p.
Proof.
  induction p as [p IH|p IH|]; intros mrs Hm; simpl iter_pos.
  - assert (H1 : 0 <= shr_m (shr_1 mrs)).
    { rewrite shr_1_m by assumption. apply Z.div_pos; lia. }
    assert (H2 : 0 <= shr_m (iter_pos shr_1 p (shr_1 mrs))).
    { rewrite IH by assumption. apply Z.div_pos; [assumption|]. apply Z.pow_pos_nonneg; lia. }
    rewrite IH by assumption. rewrite IH by assumption. rewrite shr_1_m by assumption.
    rewrite !Z.div_div by (try apply Z.pow_pos_nonneg; lia).
    f_equal. rewrite <- (Z.pow_1_r 2) at 1.
    rewrite <- !Z.pow_add_r by lia. f_equal. lia.
  - assert (H2 : 0 <= shr_m (iter_pos shr_1 p mrs)).
    { rewrite IH by assumption. apply Z.div_pos; [assumption|]. apply Z.pow_pos_nonneg; lia. }
    rewrite IH by assumption. rewrite IH by assumption.
    rewrite !Z.div_div by (try apply Z.pow_pos_nonneg; lia).
    f_equal. rewrite <- Z.pow_add_r by lia. f_equal. lia.
  - rewrite shr_1_m by assumption. reflexivity.
Qed.

Lemma shr_record_of_loc_m m l : shr_m (shr_record_of_loc m l) = m.
Proof. destruct l as [|[]]; reflexivity. Qed.

Lemma shr_fexp_spec m e l :
  0 <= m ->
  let n := fexp prec emax (Zdigits2 m + e) - e in
  0 <= n ->
  shr_m (fst (shr_fexp prec emax m e l)) = m / 2 ^ n /\
  snd (shr_fexp prec emax m e l) = e + n.
Proof.
  intros Hm n Hn. unfold shr_fexp. fold n. unfold shr.
  destruct n as [|p|p] eqn:En; try lia; simpl fst; simpl snd.
  - rewrite shr_record_of_loc_m. rewrite Z.pow_0_r, Z.div_1_r. lia.
  - rewrite iter_shr_1_m by (rewrite shr_record_of_loc_m; assumption).
    rewrite shr_record_of_loc_m. split; reflexivity.
Qed.

Lemma fexp_unfold x : fexp prec emax x = Z.max (x - 53) (-1074).
Proof. reflexivity. Qed.

Lemma shr_fexp_canonical m e l p :
  0 <= m -> e <= fexp prec emax (Zdigits2 m + e) ->
  shr_m (fst (shr_fexp prec emax m e l)) = Zpos p ->
  canonical_mantissa prec emax p (snd (shr_fexp prec emax m e l)) = true.
Proof.
  intros Hm Hn Hp.
  destruct (shr_fexp_spec m e l Hm) as [Hq He]; [lia|].
  rewrite Hp in Hq. rewrite He.
  unfold canonical_mantissa. apply Z.eqb_eq.
  set (n := fexp prec emax (Zdigits2 m + e) - e) in *.
  assert (Hm0 : 0 < m).
  { destruct (Z.eq_dec m 0) as [->|]; [|lia]. rewrite Z.div_0_l in Hq; [lia|].
    apply Z.pow_nonzero; lia. }
  assert (Hd : Zdigits2 (Zpos p) = Zdigits2 m - n).
  { rewrite Hq. apply Zdigits2_div_pow2; lia. }
  simpl Zdigits2 in Hd. rewrite Hd.
  replace (Zdigits2 m - n + (e + n)) with (Zdigits2 m + e) by lia.
  subst n. lia.
Qed.

Lemma round_nearest_even_range m l :
  m <= round_nearest_even m l <= m + 1.
Proof. destruct l as [|[]]; simpl; try destruct (Z.even m); lia. Qed.

Lemma binary_round_aux_valid s m e l :
  0 <= m -> e <= fexp prec emax (Zdigits2 m + e) ->
  valid (binary_round_aux prec emax s m e l) = true.
Proof.
  intros Hm Hn. unfold binary_round_aux.
  destruct (shr_fexp_spec m e l Hm) as [Hq He]; [lia|].
  destruct (shr_fexp prec emax m e l) as [mrs' e'] eqn:E1.
  simpl fst in Hq; simpl snd in He.
  set (m1 := round_nearest_even (shr_m mrs') (loc_of_shr_record mrs')).
  pose proof (round_nearest_even_range (shr_m mrs') (loc_of_shr_record mrs')) as Hr.
  fold m1 in Hr.
  set (n := fexp prec emax (Zdigits2 m + e) - e) in *.
  assert (Hn0 : 0 <= n) by (subst n; lia).
  assert (Hm' : 0 <= shr_m mrs').
  { rewrite Hq. apply Z.div_pos; [assumption|]. apply Z.pow_pos_nonneg; lia. }
  assert (Hm1 : 0 <= m1) by lia.
  assert (He' : e' <= fexp prec emax (Zdigits2 m1 + e')).
  { destruct (Z.eq_dec (shr_m mrs') 0) as [Hz|Hnz].
    - (* everything was shifted out: the exponent is the minimal one *)
      assert (e' = -1074).
      { destruct (Z.eq_dec m 0) as [->|Hmn].
        - subst n. simpl Zdigits2 in *. rewrite fexp_unfold in *. lia.
        - assert (m < 2 ^ n).
          { destruct (Z_lt_ge_dec m (2 ^ n)) as [?|Hge]; [assumption|exfalso].
            assert (1 <= m / 2 ^ n).
            { apply Z.div_le_lower_bound; [apply Z.pow_pos_nonneg; lia|lia]. }
            lia. }
          pose proof (Zdigits2_bounds m ltac:(lia)) as [Hlo _].
          assert (Zdigits2 m - 1 < n).
          { apply (Z.pow_lt_mono_r_iff 2); lia. }
          subst n. rewrite fexp_unfold in *. lia. }
      rewrite fexp_unfold. lia.
    - assert (Hd : Zdigits2 (shr_m mrs') = Zdigits2 m - n).
      { rewrite Hq. apply Zdigits2_div_pow2; try lia.
        destruct (Z.eq_dec m 0) as [->|]; [|lia]. rewrite Z.div_0_l in Hq; [lia|].
        apply Z.pow_nonzero; lia. }
      pose proof (Zdigits2_mono (shr_m mrs') m1 ltac:(lia)).
      subst n. rewrite fexp_unfold in *. lia. }
  pose proof (shr_fexp_canonical m1 e' loc_Exact) as Hc.
  destruct (shr_fexp prec emax m1 e' loc_Exact) as [mrs'' e''] eqn:E2.
  simpl fst in Hc; simpl snd in Hc.
  destruct (shr_m mrs'') as [|p|p] eqn:Em; try reflexivity.
  destruct (e'' <=? emax - prec) eqn:Ele; try reflexivity.
  unfold valid, valid_binary, bounded. rewrite (Hc p Hm1 He' eq_refl), Ele. reflexivity.
Qed.

Lemma hundred_eq : hundred = S754_finite false 7036874417766400 (-46).
Proof. vm_compute. reflexivity. Qed.

Lemma ten_eq : ten = S754_finite false 5629499534213120 (-49).
Proof. vm_compute. reflexivity. Qed.

Lemma seventy_five_eq : seventy_five = S754_finite false 5277655813324800 (-46).
Proof. vm_compute. reflexivity. Qed.

Lemma mul_hundred_valid x : valid (mul x hundred) = true.
Proof.
  destruct x as [s|s| |s m e]; try reflexivity.
  rewrite hundred_eq.
  unfold mul, SFmul. apply binary_round_aux_valid; [lia|].
  assert (Zdigits2 (Zpos 7036874417766400) <= Zdigits2 (Zpos (m * 7036874417766400))).
  { apply Zdigits2_mono. lia. }
  replace (Zdigits2 (Zpos 7036874417766400)) with 53 in H by (vm_compute; reflexivity).
  rewrite fexp_unfold. lia.
Qed.

Lemma canonical_digits m e :
  canonical_mantissa prec emax m e = true -> -1074 < e ->
  2 ^ 52 <= Zpos m < 2 ^ 53.
Proof.
  unfold canonical_mantissa. intros H He. apply Z.eqb_eq in H.
  rewrite fexp_unfold in H.
  assert (Hd : Zdigits2 (Zpos m) = 53) by (simpl; lia).
  pose proof (Zdigits2_bounds (Zpos m) ltac:(lia)) as Hb.
  rewrite Hd in Hb. exact Hb.
Qed.

Lemma ltb_finite_pos m1 e1 m2 e2 :
  ltb (S754_finite false m1 e1) (S754_finite false m2 e2) = true ->
  e1 < e2 \/ (e1 = e2 /\ Zpos m1 < Zpos m2).
Proof.
  unfold ltb, SFltb, SFcompare. intros H.
  destruct (Z.compare_spec e1 e2) as [He|He|He]; try discriminate.
  - right. split; [exact He|]. rewrite Pos.compare_cont_spec in H.
    unfold Pos.switch_Eq in H.
    destruct (Pos.compare_spec m1 m2) as [?|Hlt|?]; try discriminate.
    apply Pos2Z.pos_lt_pos. exact Hlt.
  - left. exact He.
Qed.

Lemma ltb_ten_inv x :
  ltb ten x = true ->
  x = S754_infinity false \/
  exists m e, x = S754_finite false m e /\
    (-49 < e \/ (e = -49 /\ 5629499534213120 < Zpos m)).
Proof.
  rewrite ten_eq.
  destruct x as [s|s| |s m e]; try (destruct s; discriminate); try discriminate.
  - destruct s; [discriminate|]. intros _. left; reflexivity.
  - destruct s; [discriminate|]. intros H. right. exists m, e. split; [reflexivity|].
    apply ltb_finite_pos in H. destruct H as [H|[H1 H2]]; [left; exact H|right].
    split; [symmetry; exact H1|exact H2].
Qed.

Lemma ltb_seventy_five_inv m e :
  ltb (S754_finite false m e) seventy_five = true ->
  e < -46 \/ (e = -46 /\ Zpos m < 5277655813324800).
Proof.
  rewrite seventy_five_eq. apply ltb_finite_pos.
Qed.

Lemma ceil_neg_exp_bounds m k lo hi :
  0 < k -> lo * k < m -> m <= hi * k -> lo + 1 <= - ((- m) / k) <= hi.
Proof.
  intros Hk Hlo Hhi.
  pose proof (Z_div_mod_eq_full (- m) k) as Hd.
  pose proof (Z.mod_pos_bound (- m) k Hk) as Hr.
  set (q := - m / k) in *. set (r := (- m) mod k) in *.
  split.
  - assert (q < - lo); [|lia]. apply Z.nle_gt. intros Hq.
    assert (k * (- lo) <= k * q) by (apply Z.mul_le_mono_nonneg_l; lia). lia.
  - assert (- hi <= q); [|lia]. apply Z.nlt_ge. intros Hq.
    assert (k * (q + 1) <= k * (- hi)) by (apply Z.mul_le_mono_nonneg_l; lia). lia.
Qed.

Lemma in_band_ceil x :
  valid x = true -> in_band x = true ->
  exists z, ceil_int x = Some z /\ 11 <= z <= 75.
Proof.
  intros Hv Hb. unfold in_band in Hb. apply andb_true_iff in Hb as [Hlo Hhi].
  apply ltb_ten_inv in Hlo as [->|(m & e & -> & Hlo)]; [discriminate|].
  apply ltb_seventy_five_inv in Hhi.
  unfold valid, valid_binary, bounded in Hv. apply andb_true_iff in Hv as [Hc _].
  pose proof (canonical_digits m e Hc ltac:(lia)) as Hd.
  replace (2 ^ 52) with 4503599627370496 in Hd by (vm_compute; reflexivity).
  replace (2 ^ 53) with 9007199254740992 in Hd by (vm_compute; reflexivity).
  unfold ceil_int, cond_Zopp. eexists; split; [reflexivity|].
  assert (He : e = -49 \/ e = -48 \/ e = -47 \/ e = -46) by lia.
  destruct He as [->|[->|[->| ->]]].
  - change (0 <=? -49) with false. cbv iota.
    replace (2 ^ (- -49)) with 562949953421312 by (vm_compute; reflexivity).
    apply (ceil_neg_exp_bounds (Zpos m) 562949953421312 10 75); lia.
  - change (0 <=? -48) with false. cbv iota.
    replace (2 ^ (- -48)) with 281474976710656 by (vm_compute; reflexivity).
    apply (ceil_neg_exp_bounds (Zpos m) 281474976710656 10 75); lia.
  - change (0 <=? -47) with false. cbv iota.
    replace (2 ^ (- -47)) with 140737488355328 by (vm_compute; reflexivity).
    apply (ceil_neg_exp_bounds (Zpos m) 140737488355328 10 75); lia.
  - change (0 <=? -46) with false. cbv iota.
    replace (2 ^ (- -46)) with 70368744177664 by (vm_compute; reflexivity).
    apply (ceil_neg_exp_bounds (Zpos m) 70368744177664 10 75); lia.
Qed.
End Float64Facts.

(** ** Cells as keys *)

Lemma hashable_idem v : hashable (hashable v) = hashable v.
Proof. destruct v as [s|z|[sg|sg| |sg m e]|b]; reflexivity. Qed.

Lemma isna_hashable v : isna (hashable v) = isna v.
Proof. destruct v as [s|z|[sg|sg| |sg m e]|b]; reflexivity. Qed.

Lemma value_eqb_eq a b : value_eqb a b = true <-> hashable a = hashable b.
Proof.
  unfold value_eqb. destruct (value_eq_dec (hashable a) (hashable b)); split; congruence.
Qed.

Lemma value_eqb_refl a : value_eqb a a = true.
Proof. apply value_eqb_eq. reflexivity. Qed.

Lemma value_eqb_hashable_l a b : value_eqb (hashable a) b = value_eqb a b.
Proof. unfold value_eqb. rewrite hashable_idem. reflexivity. Qed.

Lemma value_eqb_hashable_r a b : value_eqb a (hashable b) = value_eqb a b.
Proof. unfold value_eqb. rewrite hashable_idem. reflexivity. Qed.

Lemma value_eqb_sym a b : value_eqb a b = value_eqb b a.
Proof.
  unfold value_eqb.
  destruct (value_eq_dec (hashable a) (hashable b)), (value_eq_dec (hashable b) (hashable a));
    congruence.
Qed.

Lemma value_eqb_isna a b : value_eqb a b = true -> isna a = isna b.
Proof.
  intros H. apply value_eqb_eq in H.
  rewrite <- (isna_hashable a), <- (isna_hashable b), H. reflexivity.
Qed.

(** A [str] is its own key, and the key of nothing else. *)
Lemma hashable_Str v s : hashable v = Str s <-> v = Str s.
Proof.
  destruct v as [s'|z|[sg|sg| |sg m e]|b]; simpl; split; intros H; congruence.
Qed.

(** ** int64 *)

Lemma wrap64_range z : int64 (wrap64 z).
Proof.
  unfold wrap64, int64.
  pose proof (Z.mod_pos_bound (z + 2 ^ 63) (2 ^ 64) ltac:(lia)). lia.
Qed.

Lemma wrap64_id z : int64 z -> wrap64 z = z.
Proof.
  unfold wrap64, int64. intros H. rewrite Z.mod_small; lia.
Qed.

Lemma wrap64_add x y : wrap64 (x + wrap64 y) = wrap64 (x + y).
Proof.
  unfold wrap64. f_equal.
  replace (x + ((y + 2 ^ 63) mod 2 ^ 64 - 2 ^ 63) + 2 ^ 63)
    with (x + (y + 2 ^ 63) mod 2 ^ 64) by lia.
  rewrite Zplus_mod_idemp_r. f_equal. lia.
Qed.

(** The sum of an int64 column is the exact sum, reduced to int64. *)
Lemma sum_wrap l : sum l = wrap64 (exact_sum l).
Proof.
  induction l as [|x l IH]; simpl; [reflexivity|].
  rewrite IH. apply wrap64_add.
Qed.

Lemma sum_range l : int64 (sum l).
Proof. rewrite sum_wrap. apply wrap64_range. Qed.

Lemma sum_exact l : int64 (exact_sum l) -> sum l = exact_sum l.
Proof. intros H. rewrite sum_wrap. apply wrap64_id. exact H. Qed.

(** ** Columns: membership, distinct values *)

Lemma mem_In s l : mem s l = true <-> In s l.
Proof.
  unfold mem. rewrite existsb_exists. split.
  - intros (x & Hx & Heq). apply String.eqb_eq in Heq. subst. exact Hx.
  - intros H. exists s. split; [exact H|apply String.eqb_refl].
Qed.

Lemma mem_false s l : mem s l = false <-> ~ In s l.
Proof.
  rewrite <- mem_In. destruct (mem s l); split; intros H; congruence.
Qed.

Lemma mem_value_In v l : mem_value v l = true <-> In v l.
Proof. unfold mem_value. destruct (in_dec value_eq_dec v l); split; congruence. Qed.

Lemma mem_value_false v l : mem_value v l = false <-> ~ In v l.
Proof. unfold mem_value. destruct (in_dec value_eq_dec v l); split; congruence. Qed.

Lemma isin_iff v terms : isin v terms = true <-> exists t, In t terms /\ v = Str t.
Proof.
  destruct v as [s|z|x|b]; simpl.
  - rewrite mem_In. split; [eauto|]. intros (t & Ht & Heq). inversion Heq. subst. exact Ht.
  - split; [discriminate|]. intros (t & _ & H). discriminate.
  - split; [discriminate|]. intros (t & _ & H). discriminate.
  - split; [discriminate|]. intros (t & _ & H). discriminate.
Qed.

Lemma unique_from_In seen l x :
  In x (unique_from seen l) <-> In x l /\ ~ In x seen.
Proof.
  revert seen. induction l as [|y l IH]; intros seen; simpl; [tauto|].
  destruct (mem_value y seen) eqn:E.
  - apply mem_value_In in E. rewrite IH. split.
    + intros [H1 H2]. auto.
    + intros [[->|H1] H2]; [contradiction|auto].
  - apply mem_value_false in E. simpl. rewrite IH. simpl. split.
    + intros [->|[H1 H2]]; auto.
    + intros [[->|H1] H2]; [auto|].
      destruct (value_eq_dec y x) as [->|Hne]; [auto|]. right. split; [exact H1|].
      intros [?|?]; contradiction.
Qed.

Lemma unique_from_NoDup seen l : NoDup (unique_from seen l).
Proof.
  revert seen. induction l as [|y l IH]; intros seen; simpl; [constructor|].
  destruct (mem_value y seen); [apply IH|].
  constructor; [|apply IH].
  rewrite unique_from_In. simpl. tauto.
Qed.

Lemma unique_from_NoDup_id seen l :
  NoDup l -> (forall x, In x l -> ~ In x seen) -> unique_from seen l = l.
Proof.
  intros Hnd. revert seen. induction Hnd as [|x l Hx _ IH]; intros seen Hs; [reflexivity|].
  simpl. destruct (mem_value x seen) eqn:E.
  - apply mem_value_In in E. exfalso. apply (Hs x); simpl; auto.
  - f_equal. apply IH. intros y Hy [<-|Hin]; [contradiction|].
    apply (Hs y); simpl; auto.
Qed.

Lemma unique_In l x : In x (unique l) <-> In x (map hashable l).
Proof. unfold unique. rewrite unique_from_In. simpl. tauto. Qed.

Lemma unique_NoDup l : NoDup (unique l).
Proof. apply unique_from_NoDup. Qed.

(** The keys of a column are the keys of its cells that are not NaN,
    each once. *)
Lemma keys_In l k :
  In k (keys l) <-> exists v, In v l /\ isna v = false /\ k = hashable v.
Proof.
  unfold keys. rewrite unique_In, in_map_iff. split.
  - intros (v & <- & Hv). apply filter_In in Hv as [Hv Hn].
    apply negb_true_iff in Hn. eauto.
  - intros (v & Hv & Hn & ->). exists v. split; [reflexivity|].
    apply filter_In. split; [exact Hv|]. apply negb_true_iff. exact Hn.
Qed.

Lemma keys_NoDup l : NoDup (keys l).
Proof. apply unique_NoDup. Qed.

Lemma keys_hashable l k : In k (keys l) -> hashable k = k /\ isna k = false.
Proof.
  intros H. apply keys_In in H as (v & _ & Hn & ->).
  rewrite hashable_idem, isna_hashable. auto.
Qed.

Lemma shape0_nonneg {A} (l : list A) : 0 <= shape0 l.
Proof. unfold shape0. lia. Qed.

(** Rows removed by a filter are counted by the complementary filter. *)
Lemma filter_length_split {A} (f : A -> bool) (l : list A) :
  shape0 l - shape0 (filter f l) = shape0 (filter (fun x => negb (f x)) l).
Proof.
  unfold shape0. induction l as [|x l IH]; [reflexivity|].
  cbn [filter]. destruct (f x); cbn [negb List.length]; rewrite ?Nat2Z.inj_succ; lia.
Qed.

Lemma filter_none {A} (f : A -> bool) (l : list A) :
  (forall x, In x l -> f x = false) -> filter f l = [].
Proof.
  induction l as [|x l IH]; simpl; intros H; [reflexivity|].
  rewrite (H x) by auto. apply IH. auto.
Qed.

(** A key that occurs once selects one entry of a table. *)
Lemma filter_unique_key {V} (l : list (value * V)) k v :
  NoDup (map fst l) -> (forall kv, In kv l -> hashable (fst kv) = fst kv) ->
  In (hashable k, v) l ->
  filter (fun kv => value_eqb (fst kv) k) l = [(hashable k, v)].
Proof.
  induction l as [|[k' v'] l IH]; simpl; intros Hnd Hh Hin; [contradiction|].
  inversion Hnd as [|? ? Hnot Hnd']; subst.
  assert (Hk' : hashable k' = k') by (apply (Hh (k', v')); auto).
  assert (Hnone : ~ In (hashable k) (map fst l) ->
            filter (fun kv : value * V => value_eqb (fst kv) k) l = []).
  { intros Hk0. apply filter_none. intros [a b] Hab. simpl.
    destruct (value_eqb a k) eqn:E; [|reflexivity].
    exfalso. apply Hk0. apply value_eqb_eq in E.
    assert (Ha : hashable a = a) by (apply (Hh (a, b)); simpl; auto).
    rewrite <- E, Ha. change a with (fst (a, b)).
    apply in_map. exact Hab. }
  destruct Hin as [Heq|Hin].
  - inversion Heq; subst. rewrite value_eqb_hashable_l, value_eqb_refl.
    f_equal. apply Hnone. exact Hnot.
  - destruct (value_eqb k' k) eqn:E.
    + exfalso. apply Hnot. apply value_eqb_eq in E. rewrite <- Hk', E.
      change (hashable k) with (fst (hashable k, v)). apply in_map. exact Hin.
    + apply IH; auto.
Qed.

Lemma flat_map_singleton {A B} (f : A -> list B) (g : A -> B) (l : list A) :
  (forall x, In x l -> f x = [g x]) -> flat_map f l = map g l.
Proof.
  induction l as [|x l IH]; simpl; intros H; [reflexivity|].
  rewrite (H x) by auto. simpl. f_equal. apply IH. auto.
Qed.

Lemma Permutation_filter_length {A} (f : A -> bool) l l' :
  Permutation l l' -> List.length (filter f l) = List.length (filter f l').
Proof.
  induction 1 as [|x l l' _ IH|x y l|l l' l'' _ IH1 _ IH2]; simpl.
  - reflexivity.
  - destruct (f x); simpl; congruence.
  - destruct (f x), (f y); reflexivity.
  - congruence.
Qed.

Lemma filter_map_length {A B} (f : B -> bool) (g : A -> B) l :
  List.length (filter f (map g l)) = List.length (filter (fun x => f (g x)) l).
Proof.
  induction l as [|x l IH]; simpl; [reflexivity|].
  destruct (f (g x)); simpl; congruence.
Qed.

Lemma In_firstn {A} n (l : list A) x : In x (firstn n l) -> In x l.
Proof.
  intros H. rewrite <- (firstn_skipn n l). apply in_or_app. left. exact H.
Qed.

Lemma NoDup_firstn {A} n (l : list A) : NoDup l -> NoDup (firstn n l).
Proof.
  intros H. revert n. induction H as [|x l Hx _ IH]; intros [|n]; simpl; try constructor.
  - intros Hin. apply Hx. apply In_firstn in Hin. exact Hin.
  - apply IH.
Qed.

Lemma NoDup_filter_map {A B} (g : A -> B) (f : A -> bool) l :
  NoDup (map g l) -> NoDup (map g (filter f l)).
Proof.
  induction l as [|x l IH]; simpl; intros H; [constructor|].
  inversion H as [|? ? Hx Hl]; subst.
  destruct (f x); [|apply IH; exact Hl].
  simpl. constructor; [|apply IH; exact Hl].
  intros Hin. apply Hx. apply in_map_iff in Hin as (y & Hy & Hin).
  apply filter_In in Hin as [Hin _]. rewrite <- Hy. apply in_map. exact Hin.
Qed.

Lemma Forall2_In_r {A B} (P : A -> B -> Prop) l l' y :
  Forall2 P l l' -> In y l' -> exists x, In x l /\ P x y.
Proof.
  induction 1 as [|a b l l' Hab HF IH]; simpl; [tauto|].
  intros [<-|Hy]; [eauto|]. destruct (IH Hy) as (x & Hx & Hp). eauto.
Qed.

Lemma Forall2_In_l {A B} (P : A -> B -> Prop) l l' x :
  Forall2 P l l' -> In x l -> exists y, In y l' /\ P x y.
Proof.
  induction 1 as [|a b l l' Hab HF IH]; simpl; [tauto|].
  intros [<-|Hx]; [eauto|]. destruct (IH Hx) as (y & Hy & Hp). eauto.
Qed.

(** ** Sorted lists *)



Lemma StronglySorted_firstn {A} (R : A -> A -> Prop) n l :
  StronglySorted R l -> StronglySorted R (firstn n l).
Proof.
  intros H. revert n. induction H as [|x l Hs IH Hx]; intros [|n]; simpl; try constructor.
  - apply IH.
  - rewrite Forall_forall in *. intros y Hy. apply Hx.
    rewrite <- (firstn_skipn n l). apply in_or_app. left. exact Hy.
Qed.

Lemma StronglySorted_weaken {A} (R S : A -> A -> Prop) l :
  (forall x y, In x l -> In y l -> R x y -> S x y) ->
  StronglySorted R l -> StronglySorted S l.
Proof.
  intros H Hs. induction Hs as [|x l Hs IH Hx]; constructor.
  - apply IH. intros; apply H; simpl; auto.
  - rewrite Forall_forall in *. intros y Hy. apply H; simpl; auto.
Qed.


Lemma StronglySorted_app_cross {A} (R : A -> A -> Prop) l1 l2 x y :
  StronglySorted R (l1 ++ l2) -> In x l1 -> In y l2 -> R x y.
Proof.
  induction l1 as [|a l1 IH]; simpl; intros H Hx Hy; [tauto|].
  inversion H as [|? ? Hs Ha]; subst.
  destruct Hx as [->|Hx]; [|apply IH; assumption].
  rewrite Forall_forall in Ha. apply Ha. apply in_or_app. right. exact Hy.
Qed.

(** ** The order of the totals *)

Lemma key_compare_le a b : key_compare a b <> Gt <-> key_le a b.
Proof.
  destruct a as [a0 [[a1 a2] a3]], b as [b0 [[b1 b2] b3]]. unfold key_compare, key_le.
  destruct (Z.compare_spec a0 b0);
    [|split; [lia|intros _; discriminate]|split; [congruence|lia]].
  destruct (Z.compare_spec a1 b1);
    [|split; [lia|intros _; discriminate]|split; [congruence|lia]].
  destruct (Z.compare_spec a2 b2);
    [|split; [lia|intros _; discriminate]|split; [congruence|lia]].
  destruct (Z.compare_spec a3 b3);
    [split; [lia|intros _; discriminate]|split; [lia|intros _; discriminate]
    |split; [congruence|lia]].
Qed.

Lemma desc_total_le a b : desc_total a b = true <-> key_le (total_key b) (total_key a).
Proof.
  rewrite <- key_compare_le. unfold desc_total.
  destruct (key_compare (total_key b) (total_key a)); split; congruence.
Qed.

Lemma key_le_total a b : key_le a b \/ key_le b a.
Proof.
  destruct a as [a0 [[a1 a2] a3]], b as [b0 [[b1 b2] b3]]. unfold key_le. lia.
Qed.

Lemma key_le_trans a b c : key_le a b -> key_le b c -> key_le a c.
Proof.
  destruct a as [a0 [[a1 a2] a3]], b as [b0 [[b1 b2] b3]], c as [c0 [[c1 c2] c3]].
  unfold key_le. lia.
Qed.

Lemma desc_total_total a b : desc_total a b = true \/ desc_total b a = true.
Proof. rewrite !desc_total_le. apply key_le_total. Qed.

Lemma desc_total_trans a b c :
  desc_total a b = true -> desc_total b c = true -> desc_total a c = true.
Proof. rewrite !desc_total_le. intros H1 H2. eapply key_le_trans; eassumption. Qed.

Lemma desc_total_Int64 x y : desc_total (Int64 x) (Int64 y) = true <-> y <= x.
Proof. rewrite desc_total_le. unfold key_le, total_key. lia. Qed.

(** On floats that are no NaN the order of the keys is that of
    binary64. *)
Lemma desc_total_Float64 x y :
  Float64.is_nan x = false -> Float64.is_nan y = false ->
  desc_total (Float64 x) (Float64 y) = true -> Float64.leb y x = true.
Proof.
  intros Hx Hy. rewrite desc_total_le. unfold total_key, key_le, Float64.leb, SFleb.
  destruct x as [sx|sx| |sx mx ex], y as [sy|sy| |sy my ey];
    try discriminate; try destruct sx; try destruct sy;
    cbn [Float64.key SFcompare]; try reflexivity; try lia.
  - change (PosDef.Pos.compare_cont Eq my mx) with (Pos.compare my mx).
    destruct (Z.compare_spec ey ex); [|lia|reflexivity].
    destruct (Pos.compare_spec my mx); cbn [CompOpp]; try reflexivity. lia.
  - change (PosDef.Pos.compare_cont Eq my mx) with (Pos.compare my mx).
    destruct (Z.compare_spec ey ex); [|reflexivity|lia].
    destruct (Pos.compare_spec my mx); try reflexivity. lia.
Qed.

Lemma total_le_of_desc a b :
  total_isna a = false -> total_isna b = false ->
  (forall x, a = Int64 x -> exists y, b = Int64 y) ->
  (forall x, a = Float64 x -> exists y, b = Float64 y) ->
  desc_total a b = true -> total_le b a.
Proof.
  intros Ha Hb HI HF H. destruct a as [x|x], b as [y|y]; simpl.
  - apply desc_total_Int64. exact H.
  - destruct (HI x eq_refl) as [y' Hy]. discriminate.
  - destruct (HF x eq_refl) as [y' Hy]. discriminate.
  - apply desc_total_Float64; [| |exact H].
    + destruct x; try reflexivity. discriminate.
    + destruct y; try reflexivity. discriminate.
Qed.

(** ** Deduplication *)

Lemma same_pair_iff a b : same_pair a b = true <-> pair_of a = pair_of b.
Proof.
  unfold same_pair, pair_of. rewrite andb_true_iff, !value_eqb_eq.
  split; [intros [-> ->]; reflexivity|intros H; inversion H; auto].
Qed.

Lemma seen_pair_iff r seen :
  existsb (same_pair r) seen = true <-> In (pair_of r) (map pair_of seen).
Proof.
  rewrite existsb_exists, in_map_iff. split.
  - intros (x & Hx & Hp). apply same_pair_iff in Hp. eauto.
  - intros (x & Hp & Hx). exists x. split; [exact Hx|]. apply same_pair_iff. auto.
Qed.

Lemma drop_duplicates_from_In seen rows r :
  In r (drop_duplicates_from seen rows) ->
  In r rows /\ ~ In (pair_of r) (map pair_of seen).
Proof.
  revert seen. induction rows as [|x rows IH]; intros seen; simpl; [tauto|].
  destruct (existsb (same_pair x) seen) eqn:E.
  - intros H. apply IH in H. tauto.
  - intros [<-|H].
    + split; [auto|]. rewrite <- seen_pair_iff. congruence.
    + apply IH in H. simpl in H. tauto.
Qed.

(** A kept row is the first of the table with its pair. *)
Lemma drop_duplicates_from_first seen rows r :
  In r (drop_duplicates_from seen rows) ->
  exists before after,
    rows = before ++ r :: after /\
    forall x, In x before -> pair_of x <> pair_of r.
Proof.
  revert seen. induction rows as [|x rows IH]; intros seen; simpl; [tauto|].
  destruct (existsb (same_pair x) seen) eqn:E.
  - intros H. pose proof (drop_duplicates_from_In _ _ _ H) as [_ Hnot].
    destruct (IH _ H) as (before & after & -> & Hb).
    exists (x :: before), after. split; [reflexivity|].
    intros y [<-|Hy]; [|apply Hb; exact Hy].
    apply seen_pair_iff in E. intros Heq. apply Hnot. rewrite <- Heq. exact E.
  - intros [<-|H].
    + exists [], rows. split; [reflexivity|]. intros y [].
    + pose proof (drop_duplicates_from_In _ _ _ H) as [_ Hnot].
      destruct (IH _ H) as (before & after & -> & Hb).
      exists (x :: before), after. split; [reflexivity|].
      intros y [<-|Hy]; [|apply Hb; exact Hy].
      intros Heq. apply Hnot. simpl. left. exact Heq.
Qed.

Lemma drop_duplicates_from_NoDup seen rows :
  NoDup (map pair_of (drop_duplicates_from seen rows)).
Proof.
  revert seen. induction rows as [|x rows IH]; intros seen; simpl; [constructor|].
  destruct (existsb (same_pair x) seen); [apply IH|].
  simpl. constructor; [|apply IH].
  intros H. apply in_map_iff in H as (y & Hp & Hy).
  apply drop_duplicates_from_In in Hy as [_ Hnot]. apply Hnot. simpl. left. auto.
Qed.

(** Every pair of the table keeps a row. *)
Lemma drop_duplicates_from_covers seen rows x :
  In x rows ->
  In (pair_of x) (map pair_of seen) \/
  In (pair_of x) (map pair_of (drop_duplicates_from seen rows)).
Proof.
  revert seen. induction rows as [|y rows IH]; intros seen; simpl; [tauto|].
  destruct (existsb (same_pair y) seen) eqn:E.
  - intros [<-|H]; [left; apply seen_pair_iff; exact E|apply IH; exact H].
  - intros [<-|H]; [right; simpl; auto|].
    destruct (IH (y :: seen) H) as [[Heq|Hs]|Hr].
    + right. simpl. left. exact Heq.
    + left. exact Hs.
    + right. simpl. right. exact Hr.
Qed.

(** ** Rendering *)

Lemma render_Some r c :
  render r = Some c ->
  exists z, Float64.ceil_int (Percentage_of_Impressions r) = Some z /\
    c = {| out_Landing_Page := Landing_Page (base r);
           out_Query := Query (base r);
           out_Impressions := Impressions (base r);
           out_Total_Keyword_Impressions := Total_Keyword_Impressions r;
           out_Percentage_of_Impressions := str z ++ "%" |}.
Proof.
  unfold render. destruct (Float64.ceil_int _) as [z|]; [|discriminate].
  intros H. inversion H. eauto.
Qed.

Lemma render_all_Forall2 rows table :
  render_all rows = Some table ->
  Forall2 (fun r c => render r = Some c) rows table.
Proof.
  revert table. induction rows as [|r rows IH]; simpl; intros table H.
  - inversion H. constructor.
  - destruct (render r) as [c|] eqn:Er; [|discriminate].
    destruct (render_all rows) as [cs|]; [|discriminate].
    inversion H; subst. constructor; [exact Er|apply IH; reflexivity].
Qed.

Lemma render_all_defined rows :
  (forall r, In r rows -> render r <> None) -> exists table, render_all rows = Some table.
Proof.
  induction rows as [|r rows IH]; simpl; intros H; [eauto|].
  destruct (render r) as [c|] eqn:Er; [|exfalso; apply (H r); auto].
  destruct IH as [cs Hcs]; [intros; apply H; auto|].
  rewrite Hcs. eauto.
Qed.

Lemma render_all_keys rows table :
  render_all rows = Some table -> map key_of table = map pair_of rows.
Proof.
  intros H. apply render_all_Forall2 in H.
  induction H as [|r c rows table Hr HF IH]; simpl; [reflexivity|].
  f_equal; [|exact IH]. apply render_Some in Hr as (z & _ & ->). reflexivity.
Qed.

Lemma render_all_Permutation l l' t :
  Permutation l l' -> render_all l = Some t ->
  exists t', render_all l' = Some t' /\ Permutation t t'.
Proof.
  intros H. revert t. induction H as [|x l l' _ IH|x y l|l l' l'' _ IH1 _ IH2]; intros t Ht.
  - exists t. split; [exact Ht|reflexivity].
  - simpl in *. destruct (render x) as [c|]; [|discriminate].
    destruct (render_all l) as [cs|] eqn:E; [|discriminate].
    inversion Ht; subst. destruct (IH cs eq_refl) as (t' & -> & Hp).
    eexists. split; [reflexivity|]. constructor. exact Hp.
  - simpl in *. destruct (render y) as [cy|]; [|discriminate].
    destruct (render x) as [cx|]; [|discriminate].
    destruct (render_all l) as [cs|]; [|discriminate].
    inversion Ht; subst. eexists. split; [reflexivity|]. apply perm_swap.
  - destruct (IH1 t Ht) as (t1 & H1 & P1). destruct (IH2 t1 H1) as (t2 & H2 & P2).
    exists t2. split; [exact H2|]. etransitivity; eassumption.
Qed.

(** ** The ranking *)

(** The first total of a group whose totals are one value, no NaN. *)
Lemma first_constant l t :
  l <> [] -> total_isna t = false -> (forall x, In x l -> x = t) -> first l = t.
Proof.
  destruct l as [|x l]; [congruence|]. intros _ Ht H.
  rewrite (H x) by (left; reflexivity). simpl. rewrite Ht. reflexivity.
Qed.

(** Two distinct keys of a column, when it has at least two. *)
Lemma keys_two l :
  2 <= shape0 (keys l) ->
  exists x y, In x l /\ In y l /\ isna x = false /\ isna y = false /\
              hashable x <> hashable y.
Proof.
  unfold shape0. intros H. pose proof (keys_NoDup l) as Hnd.
  destruct (keys l) as [|a [|b u]] eqn:E; simpl in H; try lia.
  assert (Ha : In a (keys l)) by (rewrite E; simpl; auto).
  assert (Hb : In b (keys l)) by (rewrite E; simpl; auto).
  apply keys_In in Ha as (x & Hx & Hnx & ->). apply keys_In in Hb as (y & Hy & Hny & ->).
  exists x, y. repeat split; auto.
  inversion Hnd as [|? ? Hnot _]; subst. intros Heq. apply Hnot. left. auto.
Qed.

Lemma group_In q table c :
  In c (group q table) <-> In c table /\ hashable (out_Query c) = hashable q.
Proof. unfold group. rewrite filter_In, value_eqb_eq. tauto. Qed.

(** ** Splitting at commas *)

Lemma split_comma_cons s : exists piece pieces, split_comma s = piece :: pieces.
Proof.
  induction s as [|c rest (piece & pieces & IH)]; simpl; [eauto|].
  destruct (Ascii.eqb c ","); [eauto|]. rewrite IH. eauto.
Qed.

(** Joining the pieces with commas gives the text back. *)
Lemma concat_split_comma s : String.concat "," (split_comma s) = s.
Proof.
  induction s as [|c rest IH]; [reflexivity|]. cbn [split_comma].
  destruct (split_comma_cons rest) as (piece & pieces & E). rewrite E in *.
  destruct (Ascii.eqb_spec c ","%char) as [->|Hc].
  - change (String.concat "," ("" :: piece :: pieces))
      with ("" ++ "," ++ String.concat "," (piece :: pieces))%string.
    rewrite IH. reflexivity.
  - destruct pieces as [|p ps]; cbn [String.concat] in *; rewrite <- IH; reflexivity.
Qed.

Lemma split_comma_no_comma s piece :
  In piece (split_comma s) -> ~ In ","%char (list_ascii_of_string piece).
Proof.
  revert piece. induction s as [|c rest IH]; intros piece; cbn [split_comma].
  - intros [<-|[]]. simpl. tauto.
  - destruct (Ascii.eqb_spec c ","%char) as [->|Hc].
    + intros [<-|H]; [simpl; tauto|apply IH; exact H].
    + destruct (split_comma rest) as [|seg segs].
      * intros [<-|[]]. simpl. intros [H|[]]. congruence.
      * intros [<-|H].
        -- simpl. intros [H|H]; [congruence|]. apply (IH seg); simpl; auto.
        -- apply IH. simpl. auto.
Qed.

(** ** Stripping *)

Lemma drop_prefix_Some p s s' : drop_prefix p s = Some s' <-> s = p ++ s'.
Proof.
  revert s. induction p as [|a p IH]; intros s; simpl.
  - split; congruence.
  - destruct s as [|b s]; [split; discriminate|].
    destruct (Ascii.eqb_spec a b) as [->|Hab].
    + rewrite IH. split; congruence.
    + split; [discriminate|]. intros H. inversion H. congruence.
Qed.

Lemma drop_any_Some ws s s' :
  drop_any ws s = Some s' -> exists w, In w ws /\ s = w ++ s'.
Proof.
  induction ws as [|w ws IH]; simpl; [discriminate|].
  destruct (drop_prefix w s) as [r|] eqn:E.
  - intros H. inversion H; subst. apply drop_prefix_Some in E. eauto.
  - intros H. destruct (IH H) as (w' & Hw & Hs). eauto.
Qed.

Lemma drop_any_None ws s w rest :
  drop_any ws s = None -> In w ws -> s <> w ++ rest.
Proof.
  induction ws as [|w0 ws IH]; simpl; [tauto|].
  destruct (drop_prefix w0 s) as [r|] eqn:E; [discriminate|].
  intros H [->|Hw]; [|apply IH; assumption].
  intros Hs. apply drop_prefix_Some in Hs. congruence.
Qed.

(** What the loop has removed is made of the words of [ws], and what it
    leaves starts with none of them when they are not empty. *)

Lemma lstrip_loop_removed ws fuel s :
  exists pre, s = pre ++ lstrip_loop fuel ws s /\ made_of ws pre.
Proof.
  revert s. induction fuel as [|fuel IH]; intros s; simpl.
  - exists []. split; [reflexivity|constructor].
  - destruct (drop_any ws s) as [s'|] eqn:E.
    + destruct (drop_any_Some _ _ _ E) as (w & Hw & ->).
      destruct (IH s') as (pre & Hpre & Hm).
      exists (w ++ pre). split; [|constructor; assumption].
      rewrite <- app_assoc. f_equal. exact Hpre.
    + exists []. split; [reflexivity|constructor].
Qed.

Lemma lstrip_loop_done ws fuel s :
  (forall w, In w ws -> w <> []) -> (List.length s <= fuel)%nat ->
  drop_any ws (lstrip_loop fuel ws s) = None.
Proof.
  intros Hne. revert s. induction fuel as [|fuel IH]; intros s Hlen; simpl.
  - destruct s; [|simpl in Hlen; lia].
    destruct (drop_any ws []) as [s'|] eqn:E; [|reflexivity].
    destruct (drop_any_Some _ _ _ E) as (w & Hw & Hs).
    destruct w; [exfalso; apply (Hne [] Hw); reflexivity|discriminate].
  - destruct (drop_any ws s) as [s'|] eqn:E; [|exact E].
    apply IH. destruct (drop_any_Some _ _ _ E) as (w & Hw & ->).
    rewrite length_app in Hlen.
    destruct w; [exfalso; apply (Hne [] Hw); reflexivity|simpl in Hlen; lia].
Qed.

Lemma made_of_app_r ws a b : made_of ws a -> made_of ws b -> made_of ws (a ++ b).
Proof.
  induction 1 as [|w s Hw Hs IH]; intros Hb; [exact Hb|].
  rewrite <- app_assoc. constructor; auto.
Qed.

Lemma made_of_rev ws s : made_of (map (@rev ascii) ws) s -> made_of ws (rev s).
Proof.
  induction 1 as [|w s Hw Hs IH]; [constructor|].
  rewrite rev_app_distr. apply made_of_app_r; [exact IH|].
  apply in_map_iff in Hw as (w0 & <- & Hw0). rewrite rev_involutive.
  rewrite <- (app_nil_r w0). constructor; [exact Hw0|constructor].
Qed.

Lemma whitespace_nonempty w : In w whitespace -> w <> [].
Proof.
  intros H Hw. subst w. revert H. vm_compute. intuition discriminate.
Qed.

Lemma lstrip_spec s :
  (exists pre, s = pre ++ lstrip s /\ blank pre) /\
  (forall w, In w whitespace -> ~ starts_with w (lstrip s)).
Proof.
  unfold lstrip. split.
  - destruct (lstrip_loop_removed whitespace (List.length s) s) as (pre & H & Hm).
    exists pre. split; [exact H|exact Hm].
  - intros w Hw [rest Hr].
    apply (drop_any_None whitespace _ w rest
             (lstrip_loop_done whitespace _ s whitespace_nonempty (le_n _)) Hw Hr).
Qed.

Lemma rstrip_spec s :
  (exists post, s = rstrip s ++ post /\ blank post) /\
  (forall w, In w whitespace -> ~ ends_with w (rstrip s)).
Proof.
  unfold rstrip. split.
  - destruct (lstrip_loop_removed (map (@rev ascii) whitespace) (List.length s) (rev s))
      as (pre & H & Hm).
    exists (rev pre). split; [|apply made_of_rev; exact Hm].
    rewrite <- rev_app_distr, <- H, rev_involutive. reflexivity.
  - intros w Hw [rest Hr].
    assert (Hlen : (List.length (rev s) <= List.length s)%nat) by (rewrite length_rev; lia).
    refine (drop_any_None (map (@rev ascii) whitespace) _ (rev w) (rev rest)
              (lstrip_loop_done _ _ (rev s) _ Hlen) (in_map _ _ _ Hw) _).
    + intros w0 Hw0 He. apply in_map_iff in Hw0 as (w1 & <- & Hw1).
      apply (whitespace_nonempty w1 Hw1). destruct w1; [reflexivity|].
      apply (f_equal (@List.length ascii)) in He. rewrite length_rev in He. discriminate.
    + rewrite <- rev_app_distr, <- Hr, rev_involutive. reflexivity.
Qed.

(** [strip] removes the whitespace at the two ends, and nothing else. *)
Lemma strip_trimmed s : trimmed s (strip s).
Proof.
  unfold trimmed, strip. rewrite list_ascii_of_string_of_list_ascii.
  destruct (lstrip_spec (list_ascii_of_string s)) as ((pre & Hpre & Hb) & Hl).
  destruct (rstrip_spec (lstrip (list_ascii_of_string s))) as ((post & Hpost & Hb') & Hr).
  split; [|split].
  - exists pre, post. split; [|auto]. rewrite <- Hpost. exact Hpre.
  - intros w Hw [rest Hs]. apply (Hl w Hw). exists (rest ++ post).
    rewrite Hpost at 1. rewrite Hs, app_assoc. reflexivity.
  - exact Hr.
Qed.

(** ** The stages of the pipeline *)

(** The percentage against a missing total is NaN, outside the band. *)
Lemma nan_total_out_of_band i t :
  in_band (percentage i t) = true -> total_isna t = false.
Proof.
  destruct t as [z|x]; [reflexivity|].
  destruct x as [s|s| |s m e]; try reflexivity.
  unfold percentage, in_band, Float64.div, SFdiv.
  destruct (Float64.of_int i); discriminate.
Qed.

Lemma percentage_of_int i t :
  percentage i (Float64 (Float64.of_int t)) = percentage i (Int64 t).
Proof. reflexivity. Qed.

Lemma percentage_valid i t : Float64.valid (percentage i t) = true.
Proof. destruct t; apply Float64Facts.mul_hundred_valid. Qed.

Lemma remove_queries_filter terms rows :
  remove_queries terms rows = filter (fun r => negb (isin (Query r) terms)) rows.
Proof.
  destruct terms as [|t terms]; [|reflexivity]. simpl.
  induction rows as [|r rows IH]; simpl.
  - reflexivity.
  - destruct (Query r); simpl; f_equal; exact IH.
Qed.

Lemma total_of_hashable rows q : total_of rows (hashable q) = total_of rows q.
Proof.
  unfold total_of. do 2 f_equal. apply filter_ext. intros r.
  apply value_eqb_hashable_r.
Qed.

Lemma total_of_eq rows q q' :
  hashable q = hashable q' -> total_of rows q = total_of rows q'.
Proof.
  intros H. rewrite <- (total_of_hashable rows q), H. apply total_of_hashable.
Qed.


(** The total column once every row has looked up its own query. *)
Lemma total_column_eq rows :
  total_column
    (map (fun r => (r, if isna (Query r) then None else Some (total_of rows (Query r)))) rows)
  = map (score rows) rows.
Proof.
  unfold total_column. rewrite map_map.
  assert (Hf : forall (g : Row -> Z) l,
             forallb found
               (map (fun r => (r, if isna (Query r) then None else Some (g r))) l) =
             forallb (fun x => negb (isna (Query x))) l).
  { intros g l. induction l as [|r l IH]; simpl; [reflexivity|].
    rewrite IH. f_equal. unfold found. simpl. destruct (isna (Query r)); reflexivity. }
  rewrite (Hf (fun r => total_of rows (Query r))). apply map_ext_in. intros r Hr. unfold score, total_in. cbn [fst snd].
  destruct (forallb (fun x => negb (isna (Query x))) rows) eqn:E.
  - rewrite forallb_forall in E. rewrite (proj1 (negb_true_iff _) (E r Hr)). reflexivity.
  - destruct (isna (Query r)); reflexivity.
Qed.

Section PipelineFacts.

Context {numeric : Numeric} {sorting : SortValues}.

Lemma sort_by_In {A} (leb : A -> A -> bool) l x : In x (sort_by leb l) <-> In x l.
Proof.
  split; apply Permutation_in; [|symmetry]; apply sort_by_perm.
Qed.

Lemma sort_by_nil {A} (leb : A -> A -> bool) : sort_by leb [] = [].
Proof. apply Permutation_nil. symmetry. apply sort_by_perm. Qed.

Lemma groupby_sum_keys rows : NoDup (map fst (groupby_sum rows)).
Proof.
  unfold groupby_sum. rewrite map_map. simpl. rewrite map_id.
  eapply Permutation_NoDup; [symmetry; apply sort_by_perm|apply keys_NoDup].
Qed.

Lemma groupby_sum_key rows kv :
  In kv (groupby_sum rows) -> hashable (fst kv) = fst kv /\ isna (fst kv) = false.
Proof.
  unfold groupby_sum. rewrite in_map_iff. intros (k & <- & Hk).
  apply sort_by_In in Hk. simpl. apply (keys_hashable _ _ Hk).
Qed.

Lemma groupby_sum_In rows r :
  In r rows -> isna (Query r) = false ->
  In (hashable (Query r), total_of rows (Query r)) (groupby_sum rows).
Proof.
  intros H Hn. unfold groupby_sum. rewrite <- (total_of_hashable rows (Query r)).
  apply (in_map (fun q => (q, total_of rows q))).
  apply sort_by_In, keys_In. exists (Query r). split; [|auto].
  apply in_map. exact H.
Qed.

(** The left merge finds one total for a row with a query, that of the
    query, and none for a row without. *)
Lemma merge_left_eq rows :
  merge_left rows (groupby_sum rows) =
  map (fun r => (r, if isna (Query r) then None else Some (total_of rows (Query r)))) rows.
Proof.
  unfold merge_left. apply flat_map_singleton. intros r Hr.
  destruct (isna (Query r)) eqn:Hn.
  - rewrite filter_none; [reflexivity|].
    intros kv Hkv. destruct (value_eqb (fst kv) (Query r)) eqn:E; [|reflexivity].
    apply value_eqb_isna in E. destruct (groupby_sum_key rows kv Hkv) as [_ Hk]. congruence.
  - rewrite (filter_unique_key (groupby_sum rows) (Query r) (total_of rows (Query r))
               (groupby_sum_keys rows)
               (fun kv H => proj1 (groupby_sum_key rows kv H))
               (groupby_sum_In rows r Hr Hn)).
    reflexivity.
Qed.

Lemma with_totals_eq rows : with_totals rows = map (score rows) rows.
Proof. unfold with_totals. rewrite merge_left_eq. apply total_column_eq. Qed.


Lemma with_totals_In rows s :
  In s (with_totals rows) <-> exists r, In r rows /\ s = score rows r.
Proof.
  rewrite with_totals_eq, in_map_iff. split; intros (r & H1 & H2); eauto.
Qed.



Lemma retained_In frame q r :
  In r (retained frame q) <->
  In r (normalized frame) /\ isin (Query r) (parse_queries_to_remove q) = false /\
  10 <= Impressions r.
Proof.
  unfold retained, filter_exclude. simpl. unfold drop_low_impressions.
  rewrite remove_queries_filter, !filter_In, negb_true_iff, Z.leb_le.
  unfold sort_impressions. rewrite sort_by_In. tauto.
Qed.


Lemma deduplicated_In frame q s :
  In s (deduplicated frame q) -> In s (with_totals (retained frame q)).
Proof. intros H. apply drop_duplicates_from_In in H. tauto. Qed.

Lemma scored_percentage_valid rows s :
  In s (with_totals rows) -> Float64.valid (Percentage_of_Impressions s) = true.
Proof.
  intros H. apply with_totals_In in H as (r & _ & ->). simpl. apply percentage_valid.
Qed.

(** A row of the share band has a ceiling, between 11 and 75. *)
Lemma banded_ceiling frame q s :
  In s (share_band (deduplicated frame q)) ->
  exists z, Float64.ceil_int (Percentage_of_Impressions s) = Some z /\ 11 <= z <= 75.
Proof.
  unfold share_band. rewrite filter_In. intros [Hs Hb].
  apply Float64Facts.in_band_ceil; [|exact Hb].
  eapply scored_percentage_valid, deduplicated_In, Hs.
Qed.

(** Line 101 does not raise: every row of the share band is rendered. *)
Lemma share_band_rendered frame q :
  exists table,
    render_all (sort_by (fun a b => value_leb (Query (base a)) (Query (base b)))
                        (share_band (deduplicated frame q))) = Some table.
Proof.
  apply render_all_defined. intros r Hr. apply sort_by_In in Hr.
  destruct (banded_ceiling frame q r Hr) as (z & Hz & _).
  unfold render. rewrite Hz. discriminate.
Qed.

Lemma normalized_Some frame rows : normalize frame = Some rows -> normalized frame = rows.
Proof. unfold normalized. intros ->. reflexivity. Qed.

(** With the required columns, no infinity among the impressions and no
    column of the name of the new one, processing runs to its end; the
    table is the rendering of the share band, reordered. *)
Lemma process_Completed frame q rows :
  missing_columns frame = [] ->
  normalize frame = Some rows ->
  mem "Total Keyword Impressions" (columns frame) = false ->
  exists table,
    render_all (sort_by (fun a b => value_leb (Query (base a)) (Query (base b)))
                        (share_band (deduplicated frame q))) = Some table /\
    process frame q =
    Completed
      {| dropped_non_numeric := shape0 (records frame) - shape0 rows;
         queries_to_remove := parse_queries_to_remove q;
         dropped_low_impressions :=
           f_dropped_low_impressions (filter_exclude q (sort_impressions rows));
         df := sort_by (fun a b => desc_total (out_Total_Keyword_Impressions a)
                                              (out_Total_Keyword_Impressions b)) table;
         top_cannibalized :=
           rank (sort_by (fun a b => desc_total (out_Total_Keyword_Impressions a)
                                                (out_Total_Keyword_Impressions b)) table) |}.
Proof.
  intros Hm Hn Hk. destruct (share_band_rendered frame q) as [table Ht].
  exists table. split; [exact Ht|].
  unfold process. rewrite Hm, Hn, Hk. cbv zeta.
  unfold deduplicated, retained in Ht. rewrite (normalized_Some frame rows Hn) in Ht.
  rewrite Ht. reflexivity.
Qed.

Lemma process_Stopped frame q :
  missing_columns frame <> [] -> process frame q = Stopped (missing_columns frame).
Proof.
  intros H. unfold process. destruct (missing_columns frame); [congruence|reflexivity].
Qed.

Lemma Completed_inv frame q p :
  process frame q = Completed p ->
  missing_columns frame = [] /\
  mem "Total Keyword Impressions" (columns frame) = false /\
  exists rows table,
    normalize frame = Some rows /\
    render_all (sort_by (fun a b => value_leb (Query (base a)) (Query (base b)))
                        (share_band (deduplicated frame q))) = Some table /\
    df p = sort_by (fun a b => desc_total (out_Total_Keyword_Impressions a)
                                          (out_Total_Keyword_Impressions b)) table /\
    dropped_non_numeric p = shape0 (records frame) - shape0 rows /\
    queries_to_remove p = parse_queries_to_remove q /\
    dropped_low_impressions p =
      f_dropped_low_impressions (filter_exclude q (sort_impressions rows)) /\
    top_cannibalized p = rank (df p).
Proof.
  intros Hp.
  destruct (missing_columns frame) eqn:Hm;
    [|rewrite process_Stopped in Hp by congruence; discriminate].
  split; [reflexivity|].
  destruct (normalize frame) as [rows|] eqn:Hn;
    [|unfold process in Hp; rewrite Hm, Hn in Hp; discriminate].
  destruct (mem "Total Keyword Impressions" (columns frame)) eqn:Hk;
    [unfold process in Hp; rewrite Hm, Hn, Hk in Hp; discriminate|].
  split; [reflexivity|].
  destruct (process_Completed frame q rows Hm Hn Hk) as (table & Ht & Hq).
  rewrite Hq in Hp. inversion Hp; subst p; clear Hp.
  exists rows, table. cbn. auto 10.
Qed.

(** The rows of the final table are the renderings of the share band. *)
Lemma final_table_In frame q p :
  process frame q = Completed p ->
  forall c, In c (df p) <->
            exists s, In s (share_band (deduplicated frame q)) /\ render s = Some c.
Proof.
  intros Hp c.
  destruct (Completed_inv frame q p Hp) as (_ & _ & rows & table & _ & Ht & -> & _).
  pose proof (render_all_Forall2 _ _ Ht) as HF.
  rewrite sort_by_In. split.
  - intros Hc.
    destruct (Forall2_In_r _ _ _ _ HF Hc) as (s & Hs & Hr).
    exists s. split; [|exact Hr]. apply sort_by_In in Hs. exact Hs.
  - intros (s & Hs & Hr).
    apply (proj2 (sort_by_In (fun a b => value_leb (Query (base a)) (Query (base b))) _ _))
      in Hs.
    destruct (Forall2_In_l _ _ _ _ HF Hs) as (c' & Hc' & Hr').
    congruence.
Qed.

(** A row of the final table is a retained row with the total of its
    query, its share within the band. *)
Lemma final_row_origin frame q p c :
  process frame q = Completed p -> In c (df p) ->
  exists r, In r (retained frame q) /\
    out_Query c = Query r /\ out_Landing_Page c = Landing_Page r /\
    out_Impressions c = Impressions r /\
    out_Total_Keyword_Impressions c = total_in (retained frame q) r /\
    in_band (percentage (Impressions r) (total_in (retained frame q) r)) = true.
Proof.
  intros Hp Hc. apply (final_table_In frame q p Hp) in Hc as (s & Hs & Hr).
  unfold share_band in Hs. apply filter_In in Hs as [Hs Hb].
  apply deduplicated_In, with_totals_In in Hs as (r & Hin & ->).
  apply render_Some in Hr as (z & _ & ->). exists r. cbn in *. auto 10.
Qed.

(** The totals of the final table are present, and of one type. *)
Lemma final_table_total frame q p c :
  process frame q = Completed p -> In c (df p) ->
  isna (out_Query c) = false /\
  total_isna (out_Total_Keyword_Impressions c) = false /\
  out_Total_Keyword_Impressions c =
    if forallb (fun x => negb (isna (Query x))) (retained frame q)
    then Int64 (total_of (retained frame q) (out_Query c))
    else Float64 (Float64.of_int (total_of (retained frame q) (out_Query c))).
Proof.
  intros Hp Hc.
  destruct (final_row_origin frame q p c Hp Hc) as (r & Hr & Hq & _ & _ & Ht & Hb).
  apply nan_total_out_of_band in Hb. rewrite Ht, Hq. unfold total_in in *.
  destruct (forallb (fun x => negb (isna (Query x))) (retained frame q)) eqn:E.
  - rewrite forallb_forall in E. specialize (E r Hr). apply negb_true_iff in E. auto.
  - destruct (isna (Query r)); [discriminate|auto].
Qed.

Lemma final_totals_comparable frame q p a b :
  process frame q = Completed p -> In a (df p) -> In b (df p) ->
  desc_total (out_Total_Keyword_Impressions a) (out_Total_Keyword_Impressions b) = true ->
  total_le (out_Total_Keyword_Impressions b) (out_Total_Keyword_Impressions a).
Proof.
  intros Hp Ha Hb.
  destruct (final_table_total frame q p a Hp Ha) as (_ & Hna & Hta).
  destruct (final_table_total frame q p b Hp Hb) as (_ & Hnb & Htb).
  apply total_le_of_desc; try assumption.
  - intros x Hx. rewrite Hx in Hta. rewrite Htb.
    destruct (forallb _ _); [eauto|discriminate].
  - intros x Hx. rewrite Hx in Hta. rewrite Htb.
    destruct (forallb _ _); [discriminate|eauto].
Qed.

Lemma final_table_same_total frame q p a b :
  process frame q = Completed p -> In a (df p) -> In b (df p) ->
  hashable (out_Query a) = hashable (out_Query b) ->
  out_Total_Keyword_Impressions a = out_Total_Keyword_Impressions b.
Proof.
  intros Hp Ha Hb Hq.
  destruct (final_table_total frame q p a Hp Ha) as (_ & _ & ->).
  destruct (final_table_total frame q p b Hp Hb) as (_ & _ & ->).
  rewrite (total_of_eq _ _ _ Hq). reflexivity.
Qed.

Lemma final_table_NoDup frame q p :
  process frame q = Completed p -> NoDup (map key_of (df p)).
Proof.
  intros Hp.
  destruct (Completed_inv frame q p Hp) as (_ & _ & rows & table & _ & Ht & -> & _).
  eapply Permutation_NoDup; [apply Permutation_map; symmetry; apply sort_by_perm|].
  rewrite (render_all_keys _ _ Ht).
  eapply Permutation_NoDup; [apply Permutation_map; symmetry; apply sort_by_perm|].
  unfold share_band. apply NoDup_filter_map.
  apply (drop_duplicates_from_NoDup [] (with_totals (retained frame q))).
Qed.

Lemma rank_In table c :
  In c (rank table) ->
  In (c_Query c) (keys (map out_Query table)) /\
  c_Landing_Page c = nunique (c_Query c) table /\
  1 < c_Landing_Page c /\
  c_Total_Keyword_Impressions c =
    first (map out_Total_Keyword_Impressions (group (c_Query c) table)).
Proof.
  unfold rank. intros H.
  apply In_firstn in H. apply sort_by_In in H.
  apply filter_In in H as [H Hn]. apply Z.ltb_lt in Hn.
  apply in_map_iff in H as (q & <- & Hq).
  cbn [c_Query c_Landing_Page c_Total_Keyword_Impressions] in *.
  apply (proj1 (sort_by_In _ _ _)) in Hq.
  split; [exact Hq|]. split; [reflexivity|]. split; [exact Hn|reflexivity].
Qed.

Lemma rank_sorted table :
  StronglySorted
    (fun a b => desc_total (c_Total_Keyword_Impressions a)
                           (c_Total_Keyword_Impressions b) = true)
    (rank table).
Proof.
  unfold rank. apply StronglySorted_firstn.
  apply (sort_by_sorted Cannibalized
           (fun a b => desc_total (c_Total_Keyword_Impressions a)
                                  (c_Total_Keyword_Impressions b))).
  - intros x y. apply desc_total_total.
  - intros x y z. apply desc_total_trans.
Qed.

Lemma rank_length table :
  List.length (rank table) =
  Nat.min 10 (List.length (filter (fun q => 1 <? nunique q table)
                                  (keys (map out_Query table)))).
Proof.
  unfold rank. rewrite length_firstn. f_equal.
  rewrite (Permutation_length (sort_by_perm _ _ _)).
  rewrite filter_map_length. simpl.
  apply Permutation_filter_length, sort_by_perm.
Qed.

(** The total of a query of the final table, as the ranking takes it:
    that of any of its rows. *)
Lemma group_first frame q p k c :
  process frame q = Completed p -> In c (df p) ->
  hashable (out_Query c) = hashable k ->
  first (map out_Total_Keyword_Impressions (group k (df p))) =
  out_Total_Keyword_Impressions c.
Proof.
  intros Hp Hc Hk. apply first_constant.
  - intros Hnil. assert (Hg : In c (group k (df p))) by (apply group_In; auto).
    apply (in_map out_Total_Keyword_Impressions) in Hg. rewrite Hnil in Hg. exact Hg.
  - apply (final_table_total frame q p c Hp Hc).
  - intros x Hx. apply in_map_iff in Hx as (c1 & <- & Hc1).
    apply group_In in Hc1 as [Hc1 Hq1].
    apply (final_table_same_total frame q p); auto. congruence.
Qed.

(** A ranked query has rows in the final table, and its total is theirs. *)
Lemma rank_total frame q p c :
  process frame q = Completed p -> In c (top_cannibalized p) ->
  (exists r, In r (df p) /\ hashable (out_Query r) = c_Query c) /\
  (forall r, In r (df p) -> hashable (out_Query r) = hashable (c_Query c) ->
             c_Total_Keyword_Impressions c = out_Total_Keyword_Impressions r).
Proof.
  intros Hp Hc.
  destruct (Completed_inv frame q p Hp) as (_ & _ & _ & _ & _ & _ & _ & _ & _ & _ & Htop).
  rewrite Htop in Hc. apply rank_In in Hc as (Hq & _ & _ & Ht).
  apply keys_In in Hq as (v & Hv & Hn & Hk). apply in_map_iff in Hv as (r & <- & Hr).
  split; [exists r; auto|].
  intros r' Hr' Hq'. rewrite Ht. apply (group_first frame q p); auto.
Qed.

End PipelineFacts.

(** ** Normalization *)

Section NormalizationFacts.

Context {numeric : Numeric}.

Lemma of_float_Dropped x : of_float x = Dropped <-> Float64.is_nan x = true.
Proof. destruct x; simpl; split; congruence. Qed.

Lemma of_float_NonFinite x : of_float x = NonFinite <-> Float64.is_inf x = true.
Proof. destruct x; simpl; split; congruence. Qed.

Lemma coerce_Dropped v : coerce v = Dropped <-> not_a_number v = true.
Proof.
  destruct v as [s|z|x|b]; simpl; try apply of_float_Dropped; split; discriminate.
Qed.

Lemma coerce_NonFinite v : coerce v = NonFinite <-> infinite v = true.
Proof.
  destruct v as [s|z|x|b]; simpl; try apply of_float_NonFinite; split; discriminate.
Qed.

(** An integer of the column [Impressions] is an int64. *)
Lemma coerce_Number v z : coerce v = Number z -> int64 z.
Proof.
  assert (Hf : forall x, of_float x = Number z -> int64 z).
  { intros x. destruct x; simpl; intros H; inversion H; apply astype_int_range. }
  destruct v as [s|z'|x|b]; simpl; try apply Hf.
  - intros H. inversion H. apply wrap64_range.
  - intros H. inversion H. unfold int64. destruct b; lia.
Qed.

Lemma non_finite_infinite frame rec :
  non_finite frame rec = infinite (impressions_cell frame rec).
Proof.
  unfold non_finite. destruct (coerce (impressions_cell frame rec)) eqn:E.
  - apply coerce_Dropped in E. symmetry.
    destruct (infinite _) eqn:Ei; [|reflexivity].
    apply coerce_NonFinite in Ei. apply coerce_Dropped in E. congruence.
  - apply coerce_NonFinite in E. congruence.
  - destruct (infinite _) eqn:Ei; [|reflexivity].
    apply coerce_NonFinite in Ei. congruence.
Qed.

(** [astype(int)] raises on an infinity, and on nothing else. *)
Lemma normalize_None frame :
  normalize frame = None <->
  exists rec, In rec (records frame) /\ infinite (impressions_cell frame rec) = true.
Proof.
  unfold normalize. destruct (existsb (non_finite frame) (records frame)) eqn:E.
  - apply existsb_exists in E as (rec & Hrec & Hn). rewrite non_finite_infinite in Hn.
    split; [eauto|reflexivity].
  - split; [discriminate|]. intros (rec & Hrec & Hn). exfalso.
    rewrite <- non_finite_infinite in Hn.
    assert (H : existsb (non_finite frame) (records frame) = true)
      by (apply existsb_exists; eauto).
    congruence.
Qed.

Lemma normalize_Some frame rows :
  normalize frame = Some rows ->
  rows = numeric_rows frame /\
  forall rec, In rec (records frame) -> infinite (impressions_cell frame rec) = false.
Proof.
  unfold normalize. destruct (existsb (non_finite frame) (records frame)) eqn:E;
    [discriminate|].
  intros H. inversion H. split; [reflexivity|].
  intros rec Hrec. rewrite <- non_finite_infinite.
  destruct (non_finite frame rec) eqn:En; [|reflexivity].
  assert (Hex : existsb (non_finite frame) (records frame) = true)
    by (apply existsb_exists; eauto).
  congruence.
Qed.



Lemma numeric_rows_In frame r :
  In r (numeric_rows frame) ->
  exists rec, In rec (records frame) /\
    Query r = loc (columns frame) rec "Query" /\
    Landing_Page r = loc (columns frame) rec "Landing Page" /\
    coerce (impressions_cell frame rec) = Number (Impressions r).
Proof.
  unfold numeric_rows. rewrite in_flat_map. intros (rec & Hrec & Hr).
  exists rec. split; [exact Hrec|].
  destruct (coerce (impressions_cell frame rec)) as [| |z]; [destruct Hr|destruct Hr|].
  destruct Hr as [<-|[]]. simpl. auto.
Qed.

Lemma numeric_rows_nil frame :
  (forall rec, In rec (records frame) ->
     not_a_number (impressions_cell frame rec) = true) ->
  numeric_rows frame = [].
Proof.
  unfold numeric_rows. induction (records frame) as [|rec recs IH]; intros H; [reflexivity|].
  cbn [flat_map]. rewrite (proj2 (coerce_Dropped _) (H rec (or_introl eq_refl))).
  apply IH. intros r Hr. apply H. right. exact Hr.
Qed.

Lemma normalized_In frame r :
  In r (normalized frame) ->
  exists rec, In rec (records frame) /\
    Query r = loc (columns frame) rec "Query" /\
    Landing_Page r = loc (columns frame) rec "Landing Page" /\
    coerce (impressions_cell frame rec) = Number (Impressions r).
Proof.
  unfold normalized. destruct (normalize frame) as [rows|] eqn:E; [|intros []].
  apply normalize_Some in E as [-> _]. apply numeric_rows_In.
Qed.

Lemma normalized_int64 frame r : In r (normalized frame) -> int64 (Impressions r).
Proof.
  intros H. apply normalized_In in H as (rec & _ & _ & _ & H).
  apply (coerce_Number _ _ H).
Qed.

End NormalizationFacts.

(** ** A share of the whole total *)

Lemma div_eucl_div_mod a b : Z.div_eucl a b = (a / b, a mod b).
Proof. unfold Z.div, Z.modulo. destruct (Z.div_eucl a b). reflexivity. Qed.

Lemma new_location_exact m : new_location m 0 = loc_Exact.
Proof.
  unfold new_location, new_location_even, new_location_odd.
  destruct (Z.even m); reflexivity.
Qed.

Lemma div_core_self m e :
  SFdiv_core_binary Float64.prec Float64.emax (Zpos m) e (Zpos m) e = (2 ^ 53, -53, loc_Exact).
Proof.
  unfold SFdiv_core_binary. cbv zeta.
  replace (Zdigits2 (Z.pos m) + e - (Zdigits2 (Z.pos m) + e)) with 0 by lia.
  replace (e - e) with 0 by lia.
  change (Z.min (fexp Float64.prec Float64.emax 0) 0) with (-53).
  change (0 - -53) with 53.
  rewrite div_eucl_div_mod.
  rewrite Z.shiftl_mul_pow2 by lia.
  rewrite (Z.mul_comm (Z.pos m)), Z.div_mul, Z.mod_mul by lia.
  rewrite new_location_exact. reflexivity.
Qed.

(** A finite binary64 number divided by itself is 1. *)
Lemma div_self s m e :
  Float64.div (S754_finite s m e) (S754_finite s m e) =
  S754_finite false 4503599627370496 (-52).
Proof.
  unfold Float64.div, SFdiv. rewrite div_core_self. rewrite xorb_nilpotent.
  vm_compute. reflexivity.
Qed.

(** The percentage of a row that has the whole total is 100 (or NaN),
    outside the band. *)
Lemma whole_total_out_of_band i : in_band (percentage i (Int64 i)) = false.
Proof.
  unfold in_band, percentage. apply andb_false_iff. right.
  destruct (Float64.of_int i) as [s|s| |s m e]; try reflexivity.
  rewrite div_self. vm_compute. reflexivity.
Qed.

(** ** Insertion sort is a [SortValues] *)

Lemma insert_by_perm {A} (leb : A -> A -> bool) x l :
  Permutation (insert_by leb x l) (x :: l).
Proof.
  induction l as [|y l IH]; simpl; [reflexivity|].
  destruct (leb x y); [reflexivity|].
  rewrite IH. apply perm_swap.
Qed.

Lemma insertion_sort_perm (A : Type) (leb : A -> A -> bool) l :
  Permutation (insertion_sort leb l) l.
Proof.
  induction l as [|x l IH]; simpl; [reflexivity|].
  rewrite insert_by_perm. constructor. exact IH.
Qed.

Lemma insert_by_sorted {A} (leb : A -> A -> bool) :
  (forall x y, leb x y = true \/ leb y x = true) ->
  (forall x y z, leb x y = true -> leb y z = true -> leb x z = true) ->
  forall x l, StronglySorted (fun a b => leb a b = true) l ->
              StronglySorted (fun a b => leb a b = true) (insert_by leb x l).
Proof.
  intros Htot Htr x l Hs. induction Hs as [|y l Hs IH Hy]; simpl.
  - constructor; constructor.
  - destruct (leb x y) eqn:Exy.
    + constructor; [constructor; assumption|].
      constructor; [exact Exy|].
      rewrite Forall_forall in *. intros z Hz. eapply Htr; [exact Exy|]. apply Hy; exact Hz.
    + constructor; [exact IH|].
      assert (Hyx : leb y x = true) by (destruct (Htot x y); congruence).
      rewrite Forall_forall in *. intros z Hz.
      apply (Permutation_in _ (insert_by_perm leb x l)) in Hz.
      destruct Hz as [<-|Hz]; [exact Hyx|apply Hy; exact Hz].
Qed.

Lemma insertion_sort_sorted (A : Type) (leb : A -> A -> bool) :
  (forall x y, leb x y = true \/ leb y x = true) ->
  (forall x y z, leb x y = true -> leb y z = true -> leb x z = true) ->
  forall l, StronglySorted (fun a b => leb a b = true) (insertion_sort leb l).
Proof.
  intros Htot Htr l. induction l as [|x l IH]; simpl; [constructor|].
  apply insert_by_sorted; assumption.
Qed.

#[export] Instance insertion : SortValues := {|
  sort_by := @insertion_sort;
  sort_by_perm := insertion_sort_perm;
  sort_by_sorted := insertion_sort_sorted
|}.

(** ** The decimal host is a [Numeric] *)

Lemma x86_astype_int_range x : int64 (x86_astype_int x).
Proof.
  unfold x86_astype_int, int64.
  destruct (Float64.trunc x) as [z|]; [|lia].
  destruct ((- 2 ^ 63 <=? z) && (z <? 2 ^ 63)) eqn:E; [|lia].
  apply andb_true_iff in E as [E1 E2]. apply Z.leb_le in E1. apply Z.ltb_lt in E2. lia.
Qed.

Lemma x86_astype_int_trunc x z :
  Float64.trunc x = Some z -> int64 z -> x86_astype_int x = z.
Proof.
  unfold x86_astype_int, int64. intros -> [H1 H2].
  apply Z.leb_le in H1. apply Z.ltb_lt in H2. rewrite H1, H2. reflexivity.
Qed.

#[export] Instance decimal : Numeric := {|
  to_numeric := decimal_to_numeric;
  astype_int := x86_astype_int;
  astype_int_range := x86_astype_int_range;
  astype_int_trunc := x86_astype_int_trunc
|}.

(** * The claims *)

Section Claims.

Context {numeric : Numeric} {sorting : SortValues}.



(** C3. The ranking holds only queries that have at least two distinct
    landing pages in the final table: the number it gives is the number
    of the distinct landing pages, missing ones apart, of the rows of
    the query, and two rows of the query with different pages are there;
    the total is the one the rows of the query show. The ranking is in
    descending order of the totals; it has the 10 first of the queries
    that qualify, or all of them when they are fewer; and an empty
    ranking is shown as an information, not as an error. *)
Theorem ranking_of_cannibalized_queries
  (frame : DataFrame) (query_to_remove : string) (p : Processed) :
  process frame query_to_remove = Completed p ->
  (forall c, In c (top_cannibalized p) ->
     (exists pages, NoDup pages /\ c_Landing_Page c = shape0 pages /\
        forall x, In x pages <->
          exists r, In r (df p) /\ hashable (out_Query r) = c_Query c /\
                    isna (out_Landing_Page r) = false /\
                    x = hashable (out_Landing_Page r)) /\
     2 <= c_Landing_Page c /\
     (exists r1 r2, In r1 (df p) /\ In r2 (df p) /\
        hashable (out_Query r1) = c_Query c /\ hashable (out_Query r2) = c_Query c /\
        isna (out_Landing_Page r1) = false /\ isna (out_Landing_Page r2) = false /\
        hashable (out_Landing_Page r1) <> hashable (out_Landing_Page r2)) /\
     (forall r, In r (df p) -> hashable (out_Query r) = c_Query c ->
        c_Total_Keyword_Impressions c = out_Total_Keyword_Impressions r)) /\
  StronglySorted total_ge (top_cannibalized p) /\
  List.length (top_cannibalized p) =
    Nat.min 10 (List.length (filter (fun q => 1 <? nunique q (df p))
                                    (keys (map out_Query (df p))))) /\
  (top_cannibalized p = [] ->
     main true (Some (Reads frame)) query_to_remove = shown_without_ranking (df p) /\
     existsb is_error (main true (Some (Reads frame)) query_to_remove) = false).
Proof.
  intros Hp.
  destruct (Completed_inv frame query_to_remove p Hp)
    as (_ & _ & _ & _ & _ & _ & _ & _ & _ & _ & Htop).
  assert (Hkey : forall c, In c (top_cannibalized p) -> hashable (c_Query c) = c_Query c).
  { intros c Hc. rewrite Htop in Hc. apply rank_In in Hc as (Hq & _).
    apply (keys_hashable _ _ Hq). }
  split; [|split; [|split]].
  - intros c Hc. pose proof (rank_total frame query_to_remove p c Hp Hc) as [_ Ht].
    pose proof (Hkey c Hc) as Hk.
    rewrite Htop in Hc. apply rank_In in Hc as (Hq & Hn & Hlt & _).
    split; [|split; [lia|split]].
    + exists (keys (map out_Landing_Page (group (c_Query c) (df p)))).
      split; [apply keys_NoDup|]. split; [exact Hn|].
      intros x. rewrite keys_In. split.
      * intros (v & Hv & Hna & ->). apply in_map_iff in Hv as (r & <- & Hr).
        apply group_In in Hr as [Hr Hqr]. exists r. rewrite Hqr, Hk. auto.
      * intros (r & Hr & Hqr & Hna & ->). exists (out_Landing_Page r).
        split; [|auto]. apply in_map. apply group_In. rewrite Hk. auto.
    + destruct (keys_two (map out_Landing_Page (group (c_Query c) (df p))))
        as (x & y & Hx & Hy & Hnx & Hny & Hxy).
      { fold (nunique (c_Query c) (df p)). lia. }
      apply in_map_iff in Hx as (r1 & <- & H1). apply in_map_iff in Hy as (r2 & <- & H2).
      apply group_In in H1 as [H1 Hq1]. apply group_In in H2 as [H2 Hq2].
      rewrite Hk in Hq1, Hq2. exists r1, r2. auto 10.
    + intros r Hr Hqr. apply Ht; [exact Hr|]. rewrite Hk. exact Hqr.
  - apply (StronglySorted_weaken
             (fun a b => desc_total (c_Total_Keyword_Impressions a)
                                    (c_Total_Keyword_Impressions b) = true));
      [|rewrite Htop; apply rank_sorted].
    intros a b Ha Hb Hab. unfold total_ge.
    destruct (rank_total frame query_to_remove p a Hp Ha) as [(ra & Hra & Hqa) Hta].
    destruct (rank_total frame query_to_remove p b Hp Hb) as [(rb & Hrb & Hqb) Htb].
    rewrite (Hta ra Hra) in * by (rewrite (Hkey a Ha); exact Hqa).
    rewrite (Htb rb Hrb) in * by (rewrite (Hkey b Hb); exact Hqb).
    apply (final_totals_comparable frame query_to_remove p); assumption.
  - rewrite Htop. apply rank_length.
  - intros He. unfold main. rewrite Hp, He. split; reflexivity.
Qed.

(** C4. The exclusion terms are the trimmed, non-empty pieces of the
    text between commas: the pieces hold no comma and give the text back
    when joined with commas, and trimming removes the whitespace at the
    two ends of a piece and nothing else. A row is removed by the
    exclusion step exactly when its [Query] is the [str] equal to one of
    the terms: a row whose query differs from every term, be it by case
    or by containing one, stays, as does a row whose query is no
    [str]. *)
Theorem exclusion_is_exact_match (query_to_remove : string) (rows : list Row) :
  let terms := parse_queries_to_remove query_to_remove in
  (forall t, In t terms <->
     t <> "" /\ exists piece, In piece (split_comma query_to_remove) /\ t = strip piece) /\
  (forall piece, trimmed piece (strip piece)) /\
  String.concat "," (split_comma query_to_remove) = query_to_remove /\
  (forall piece, In piece (split_comma query_to_remove) ->
     ~ In ","%char (list_ascii_of_string piece)) /\
  (forall r, In r (remove_queries terms rows) <->
     In r rows /\ forall t, In t terms -> Query r <> Str t) /\
  (forall r, In r rows ->
     (~ In r (remove_queries terms rows) <-> exists t, In t terms /\ Query r = Str t)).
Proof.
  intros terms. split; [|split; [|split; [|split; [|split]]]].
  - intros t. unfold terms, parse_queries_to_remove.
    destruct (nonempty query_to_remove) eqn:Hq.
    + rewrite in_map_iff. split.
      * intros (piece & <- & Hp). apply filter_In in Hp as [Hp Hne].
        split; [|eauto]. unfold nonempty in Hne. apply negb_true_iff in Hne.
        apply String.eqb_neq in Hne. exact Hne.
      * intros (Hne & piece & Hp & ->). exists piece. split; [reflexivity|].
        apply filter_In. split; [exact Hp|]. unfold nonempty. apply negb_true_iff.
        apply String.eqb_neq. exact Hne.
    + unfold nonempty in Hq. apply negb_false_iff, String.eqb_eq in Hq. subst.
      simpl. split; [tauto|].
      intros (Hne & piece & [<-|[]] & ->). apply Hne. reflexivity.
  - apply strip_trimmed.
  - apply concat_split_comma.
  - apply split_comma_no_comma.
  - intros r. rewrite remove_queries_filter, filter_In, negb_true_iff.
    split; intros [Hr Hq]; (split; [exact Hr|]).
    + intros t Ht Heq. assert (H : isin (Query r) terms = true)
        by (apply isin_iff; eauto). congruence.
    + destruct (isin (Query r) terms) eqn:E; [|reflexivity].
      apply isin_iff in E as (t & Ht & Heq). exfalso. apply (Hq t Ht Heq).
  - intros r Hr. rewrite remove_queries_filter, filter_In, negb_true_iff, <- isin_iff.
    destruct (isin (Query r) terms); split; intros H; try reflexivity.
    + intros [_ H']. discriminate.
    + exfalso. apply H. auto.
    + discriminate.
Qed.

(** C5. When a required column is missing, processing stops with the
    error that names the missing columns, which are exactly the
    required ones absent from the table; nothing else is shown, and the
    rows play no part. *)
Theorem missing_columns_stop_the_run (frame : DataFrame) (query_to_remove : string) :
  missing_columns frame <> [] ->
  process frame query_to_remove = Stopped (missing_columns frame) /\
  main true (Some (Reads frame)) query_to_remove =
    [ st_error ("❌ Missing required columns: "
                ++ String.concat ", " (missing_columns frame)) ] /\
  (forall col, In col (missing_columns frame) <->
               In col required_columns /\ ~ In col (columns frame)) /\
  (forall rows,
     process {| columns := columns frame; records := rows |} query_to_remove =
     process frame query_to_remove).
Proof.
  intros Hm. pose proof (process_Stopped frame query_to_remove Hm) as Hp.
  split; [exact Hp|]. split; [|split].
  - unfold main. rewrite Hp. reflexivity.
  - intros col. unfold missing_columns. rewrite filter_In, negb_true_iff, mem_false. tauto.
  - intros rows. rewrite Hp.
    apply (process_Stopped {| columns := columns frame; records := rows |}).
    exact Hm.
Qed.

(** C6. The final table has at most one row for a pair of [Query] and
    [Landing Page], and deduplication keeps, for every pair of the table
    it is given, the first row that has the pair, in the order of that
    table. *)
Theorem one_row_per_query_and_page
  (frame : DataFrame) (query_to_remove : string) (p : Processed) :
  process frame query_to_remove = Completed p ->
  NoDup (map key_of (df p)) /\
  (forall c, In c (df p) ->
     exists s, In s (deduplicated frame query_to_remove) /\ render s = Some c) /\
  (forall table s, In s (drop_duplicates table) ->
     exists before after,
       table = before ++ s :: after /\
       forall x, In x before -> pair_of x <> pair_of s) /\
  (forall table x, In x table ->
     exists s, In s (drop_duplicates table) /\ pair_of s = pair_of x).
Proof.
  intros Hp. split; [|split; [|split]].
  - apply (final_table_NoDup frame query_to_remove p Hp).
  - intros c Hc.
    apply (final_table_In frame query_to_remove p Hp) in Hc as (s & Hs & Hr).
    unfold share_band in Hs. apply filter_In in Hs as [Hs _]. eauto.
  - intros table s Hs. apply (drop_duplicates_from_first [] table s Hs).
  - intros table x Hx.
    destruct (drop_duplicates_from_covers [] table x Hx) as [[]|H].
    apply in_map_iff in H as (s & Hs & Hin). eauto.
Qed.


(** C8, as the code has it. Lines 68 to 78 yield the filtered table and
    one count: the rows are those that match no exclusion term and have
    at least 10 impressions, in their order, and
    [dropped_low_impressions] is the number of rows below 10 among those
    that match no exclusion term. *)
Theorem low_impressions_are_counted (query_to_remove : string) (rows : list Row) :
  let fe := filter_exclude query_to_remove rows in
  let terms := parse_queries_to_remove query_to_remove in
  f_queries_to_remove fe = terms /\
  f_df fe = filter (fun r => negb (isin (Query r) terms) && (10 <=? Impressions r)) rows /\
  f_before_filter fe = shape0 rows - excluded query_to_remove rows /\
  f_dropped_low_impressions fe =
    shape0 (filter (fun r => negb (isin (Query r) terms) && (Impressions r <? 10)) rows).
Proof.
  intros fe terms. unfold fe, filter_exclude, excluded. cbn [f_queries_to_remove
    f_df f_before_filter f_dropped_low_impressions]. fold terms.
  unfold drop_low_impressions. rewrite remove_queries_filter.
  split; [reflexivity|]. split; [|split].
  - induction rows as [|r rows IH]; [reflexivity|]. cbn [filter].
    destruct (isin (Query r) terms); cbn [negb andb filter]; rewrite IH; reflexivity.
  - pose proof (filter_length_split (fun r => negb (isin (Query r) terms)) rows) as H.
    assert (Heq : filter (fun x => negb (negb (isin (Query x) terms))) rows =
                  filter (fun r => isin (Query r) terms) rows).
    { apply filter_ext. intros r. apply negb_involutive. }
    cbv beta in H. rewrite Heq in H. lia.
  - rewrite filter_length_split. cbv beta. f_equal.
    induction rows as [|r rows IH]; [reflexivity|]. cbn [filter].
    destruct (isin (Query r) terms); cbn [negb andb filter]; [exact IH|].
    rewrite <- Z.ltb_antisym.
    destruct (Impressions r <? 10); cbn [negb]; rewrite IH; reflexivity.
Qed.

(** C9, as the code has it. A table that has the required columns and
    whose every [Impressions] is no number has no usable row after
    normalization, and that is no error of its own: without a column
    [Total Keyword Impressions] in the file processing runs to its end,
    the cleaned table and the ranking are empty and no error is shown;
    with one, line 86 raises and the unexpected error is shown. The
    error for an empty file is the one [pd.read_csv] raises, and it is
    shown with a message of its own. *)
Theorem no_usable_row_gives_an_empty_table (frame : DataFrame) (query_to_remove : string) :
  missing_columns frame = [] ->
  (forall rec, In rec (records frame) ->
     not_a_number (impressions_cell frame rec) = true) ->
  normalize frame = Some [] /\
  (mem "Total Keyword Impressions" (columns frame) = false ->
     process frame query_to_remove =
       Completed {| dropped_non_numeric := shape0 (records frame);
                    queries_to_remove := parse_queries_to_remove query_to_remove;
                    dropped_low_impressions := 0;
                    df := [];
                    top_cannibalized := [] |} /\
     main true (Some (Reads frame)) query_to_remove = shown_without_ranking []) /\
  (mem "Total Keyword Impressions" (columns frame) = true ->
     main true (Some (Reads frame)) query_to_remove =
       [ st_error "❌ An unexpected error occurred: 'Total Keyword Impressions'" ]) /\
  main true (Some Raises_EmptyDataError) query_to_remove =
    [ st_error "❌ Error: The uploaded file is empty." ] /\
  main true (Some Raises_EmptyDataError) query_to_remove <>
    main true (Some Raises_ParserError) query_to_remove /\
  (forall narrow, missing_columns narrow <> [] ->
     main true (Some Raises_EmptyDataError) query_to_remove <>
     main true (Some (Reads narrow)) query_to_remove).
Proof.
  intros Hm Hall.
  assert (Hn : normalize frame = Some []).
  { destruct (normalize frame) as [rows|] eqn:E.
    - apply normalize_Some in E as [-> _]. f_equal. apply numeric_rows_nil. exact Hall.
    - apply normalize_None in E as (rec & Hrec & Hinf). exfalso.
      apply coerce_NonFinite in Hinf. pose proof (Hall rec Hrec) as Hd.
      apply coerce_Dropped in Hd. congruence. }
  assert (Hp : mem "Total Keyword Impressions" (columns frame) = false ->
               process frame query_to_remove =
               Completed {| dropped_non_numeric := shape0 (records frame);
                            queries_to_remove := parse_queries_to_remove query_to_remove;
                            dropped_low_impressions := 0;
                            df := [];
                            top_cannibalized := [] |}).
  { intros Hk. unfold process. rewrite Hm, Hn, Hk. unfold sort_impressions.
    rewrite sort_by_nil. unfold filter_exclude.
    assert (Hr : remove_queries (parse_queries_to_remove query_to_remove) [] = []).
    { rewrite remove_queries_filter. reflexivity. }
    cbv zeta. cbn [f_df f_queries_to_remove f_dropped_low_impressions]. rewrite Hr.
    unfold with_totals, groupby_sum, rank, keys, unique, total_column.
    repeat first
      [ rewrite sort_by_nil
      | progress cbn [drop_low_impressions filter map unique_from merge_left flat_map
                      drop_duplicates drop_duplicates_from share_band render_all firstn
                      forallb] ].
    unfold shape0. cbn [List.length]. do 2 f_equal. lia. }
  split; [exact Hn|]. split; [|split; [|split; [|split]]].
  - intros Hk. split; [apply Hp; exact Hk|].
    unfold main. rewrite (Hp Hk). reflexivity.
  - intros Hk. unfold main, process. rewrite Hm, Hn, Hk. reflexivity.
  - reflexivity.
  - discriminate.
  - intros narrow Hnarrow. unfold main.
    rewrite (process_Stopped narrow query_to_remove Hnarrow).
    intros H. inversion H.
Qed.


End Claims.

(** * Further properties of [main] *)

Lemma filter_exclude_counts query_to_remove rows :
  shape0 (remove_queries (parse_queries_to_remove query_to_remove) rows) =
    shape0 rows - excluded query_to_remove rows /\
  f_dropped_low_impressions (filter_exclude query_to_remove rows) =
    shape0 (remove_queries (parse_queries_to_remove query_to_remove) rows)
    - shape0 (f_df (filter_exclude query_to_remove rows)).
Proof.
  split; [|reflexivity].
  rewrite remove_queries_filter. unfold excluded.
  pose proof (filter_length_split
                (fun r => negb (isin (Query r) (parse_queries_to_remove query_to_remove)))
                rows) as H.
  cbv beta in H.
  assert (Heq : filter (fun x => negb (negb (isin (Query x)
                                   (parse_queries_to_remove query_to_remove)))) rows =
                filter (fun r => isin (Query r) (parse_queries_to_remove query_to_remove)) rows).
  { apply filter_ext. intros r. apply negb_involutive. }
  rewrite Heq in H. lia.
Qed.

Lemma alone_in_list {A} (x : A) l : In x l -> (List.length l < 2)%nat -> l = [x].
Proof.
  destruct l as [|a [|b l]]; simpl; intros H Hlen.
  - destruct H.
  - destruct H as [->|[]]. reflexivity.
  - lia.
Qed.

Lemma group_hashable q table : group (hashable q) table = group q table.
Proof. unfold group. apply filter_ext. intros c. apply value_eqb_hashable_r. Qed.

Lemma nunique_hashable q table : nunique (hashable q) table = nunique q table.
Proof. unfold nunique. rewrite group_hashable. reflexivity. Qed.

(** Within a table with one row for a pair, the landing pages of a query
    that are present are counted once each by the rows of the query. *)
Lemma nunique_rows q table :
  NoDup (map key_of table) ->
  nunique q table =
  shape0 (filter (fun c => negb (isna (out_Landing_Page c))) (group q table)).
Proof.
  intros Hk. unfold nunique, keys, unique.
  rewrite unique_from_NoDup_id; [| |auto].
  - unfold shape0. rewrite length_map, filter_map_length. reflexivity.
  - unfold group. clear - Hk. induction table as [|c l IH]; simpl; [constructor|].
    inversion Hk as [|? ? Hc Hk']; subst.
    destruct (value_eqb (out_Query c) q) eqn:Hq; [|apply IH; exact Hk'].
    simpl. destruct (isna (out_Landing_Page c)); simpl; [apply IH; exact Hk'|].
    constructor; [|apply IH; exact Hk'].
    intros Hin. apply Hc. apply in_map_iff in Hin as (v & Hv & Hin).
    apply filter_In in Hin as [Hin _]. apply in_map_iff in Hin as (c' & <- & Hc').
    apply filter_In in Hc' as [Hc' Hq']. apply in_map_iff. exists c'. split; [|exact Hc'].
    apply value_eqb_eq in Hq, Hq'. unfold key_of. congruence.
Qed.

Section Further.

Context {numeric : Numeric} {sorting : SortValues}.

(** X1. The final table is the rendering of the rows of the share band,
    none lost or repeated by the two sorts, in descending order of
    [Total Keyword Impressions]. *)
Theorem final_table_is_sorted_by_total
  (frame : DataFrame) (query_to_remove : string) (p : Processed) :
  process frame query_to_remove = Completed p ->
  StronglySorted out_total_ge (df p) /\
  exists table,
    render_all (share_band (deduplicated frame query_to_remove)) = Some table /\
    Permutation (df p) table.
Proof.
  intros Hp. destruct (Completed_inv frame query_to_remove p Hp)
    as (_ & _ & rows & table & _ & Ht & Hdf & _).
  split.
  - apply (StronglySorted_weaken
             (fun a b => desc_total (out_Total_Keyword_Impressions a)
                                    (out_Total_Keyword_Impressions b) = true)).
    + intros a b Ha Hb Hab.
      apply (final_totals_comparable frame query_to_remove p); assumption.
    + rewrite Hdf.
      apply (sort_by_sorted Cleaned
               (fun a b => desc_total (out_Total_Keyword_Impressions a)
                                      (out_Total_Keyword_Impressions b))).
      * intros x y. apply desc_total_total.
      * intros x y z. apply desc_total_trans.
  - destruct (render_all_Permutation _ _ table (sort_by_perm _ _ _) Ht) as (t' & Ht' & Hperm).
    exists t'. split; [exact Ht'|]. rewrite Hdf.
    etransitivity; [apply sort_by_perm|exact Hperm].
Qed.


(** X3. An error is never shown together with anything else: when [main]
    shows an error, that call is all it shows; no table, download or
    chart goes with it. *)
Theorem error_is_shown_alone
  (submit_button : bool) (uploaded_file : option UploadedFile) (query_to_remove msg : string) :
  In (st_error msg) (main submit_button uploaded_file query_to_remove) ->
  main submit_button uploaded_file query_to_remove = [ st_error msg ].
Proof.
  unfold main. destruct submit_button.
  - destruct uploaded_file as [[| |e|frame]|].
    + intros [H|[]]. inversion H. reflexivity.
    + intros [H|[]]. inversion H. reflexivity.
    + intros [H|[]]. inversion H. reflexivity.
    + destruct (process frame query_to_remove) as [missing|e|p].
      * intros [H|[]]. inversion H. reflexivity.
      * intros [H|[]]. inversion H. reflexivity.
      * intros Hin. exfalso.
        destruct (top_cannibalized p); simpl in Hin;
          repeat (destruct Hin as [Hin|Hin]; [discriminate|]); exact Hin.
    + intros [H|[]]. inversion H. reflexivity.
  - intros [H|[]]. discriminate.
Qed.

(** X4. When processing runs to its end every record of the table is
    accounted for: it is dropped as non-numeric, matched by an exclusion
    term, dropped for fewer than 10 impressions, or retained. *)
Theorem every_record_is_accounted_for
  (frame : DataFrame) (query_to_remove : string) (p : Processed) :
  process frame query_to_remove = Completed p ->
  shape0 (records frame) =
    dropped_non_numeric p
    + excluded query_to_remove (normalized frame)
    + dropped_low_impressions p
    + shape0 (retained frame query_to_remove).
Proof.
  intros Hp. destruct (Completed_inv frame query_to_remove p Hp)
    as (_ & _ & rows & _ & Hn & _ & _ & -> & _ & -> & _).
  unfold retained. rewrite (normalized_Some frame rows Hn).
  set (sorted := sort_impressions rows).
  destruct (filter_exclude_counts query_to_remove sorted) as (Hb & Hd).
  rewrite Hd.
  assert (Hlen : shape0 sorted = shape0 rows).
  { unfold shape0, sorted, sort_impressions. f_equal. apply Permutation_length, sort_by_perm. }
  assert (Hex : excluded query_to_remove sorted = excluded query_to_remove rows).
  { unfold excluded, shape0, sorted, sort_impressions. f_equal.
    apply Permutation_filter_length, sort_by_perm. }
  rewrite Hb, Hex, Hlen in *. lia.
Qed.

(** X5. The pipeline invents no row: every row of the final table has
    the [Query] and [Landing Page] of a record of the report whose
    [Impressions] is a number, that number being at least 10; its query
    is present and is none of the exclusion terms. *)
Theorem final_rows_come_from_the_report
  (frame : DataFrame) (query_to_remove : string) (p : Processed) (c : Cleaned) :
  process frame query_to_remove = Completed p ->
  In c (df p) ->
  (exists rec, In rec (records frame) /\
     out_Query c = loc (columns frame) rec "Query" /\
     out_Landing_Page c = loc (columns frame) rec "Landing Page" /\
     coerce (impressions_cell frame rec) = Number (out_Impressions c)) /\
  10 <= out_Impressions c /\
  isna (out_Query c) = false /\
  (forall t, In t (queries_to_remove p) -> out_Query c <> Str t).
Proof.
  intros Hp Hc.
  destruct (final_table_total frame query_to_remove p c Hp Hc) as (Hna & _).
  destruct (final_row_origin frame query_to_remove p c Hp Hc) as (r & Hr & Hq & Hl & Hi & _).
  apply retained_In in Hr as (Hn & Hex & Hlow).
  destruct (Completed_inv frame query_to_remove p Hp)
    as (_ & _ & _ & _ & _ & _ & _ & _ & Hterms & _).
  rewrite Hi, Hterms.
  split; [|split; [exact Hlow|split; [exact Hna|]]].
  - destruct (normalized_In frame r Hn) as (rec & Hrec & H1 & H2 & H3).
    exists rec. rewrite Hq, Hl, <- H1, <- H2. auto.
  - intros t Ht Heq. rewrite Hq in Heq.
    assert (H : isin (Query r) (parse_queries_to_remove query_to_remove) = true)
      by (apply isin_iff; eauto).
    congruence.
Qed.

(** X6. A row reaches the final table only when another retained row
    shares its query: a query with a single retained row has a share of
    100 percent, outside the band. *)
Theorem a_final_row_shares_its_query
  (frame : DataFrame) (query_to_remove : string) (p : Processed) (c : Cleaned) :
  process frame query_to_remove = Completed p ->
  In c (df p) ->
  10 <= out_Impressions c /\
  2 <= shape0 (filter (fun r => value_eqb (Query r) (out_Query c))
                      (retained frame query_to_remove)).
Proof.
  intros Hp Hc.
  destruct (final_row_origin frame query_to_remove p c Hp Hc)
    as (r & Hr & Hq & _ & Hi & _ & Hband).
  pose proof (proj1 (retained_In frame query_to_remove r) Hr) as (Hn & _ & Hlow).
  rewrite Hi, Hq. split; [exact Hlow|].
  set (mine := filter (fun x => value_eqb (Query x) (Query r))
                      (retained frame query_to_remove)).
  destruct (Z_lt_ge_dec (shape0 mine) 2) as [Hlt|Hge]; [exfalso|lia].
  assert (Hmine : mine = [r]).
  { apply alone_in_list.
    - apply filter_In. split; [exact Hr|apply value_eqb_refl].
    - unfold shape0 in Hlt. lia. }
  assert (Ht : total_of (retained frame query_to_remove) (Query r) = Impressions r).
  { unfold total_of. fold mine. rewrite Hmine. cbn [map sum].
    rewrite Z.add_0_r. apply wrap64_id. apply (normalized_int64 frame r Hn). }
  pose proof (nan_total_out_of_band _ _ Hband) as Hna.
  unfold total_in in Hband, Hna. rewrite Ht in Hband.
  destruct (forallb _ (retained frame query_to_remove)).
  - rewrite whole_total_out_of_band in Hband. discriminate.
  - destruct (isna (Query r)); [discriminate|].
    rewrite percentage_of_int, whole_total_out_of_band in Hband. discriminate.
Qed.

(** X7. A query is ranked at most once. *)
Theorem ranked_queries_are_distinct
  (frame : DataFrame) (query_to_remove : string) (p : Processed) :
  process frame query_to_remove = Completed p ->
  NoDup (map c_Query (top_cannibalized p)).
Proof.
  intros Hp.
  destruct (Completed_inv frame query_to_remove p Hp)
    as (_ & _ & _ & _ & _ & _ & _ & _ & _ & _ & ->).
  unfold rank. rewrite <- firstn_map. apply NoDup_firstn.
  eapply Permutation_NoDup; [apply Permutation_map; symmetry; apply sort_by_perm|].
  set (ks := sort_by value_leb (keys (map out_Query (df p)))).
  assert (Hk : NoDup ks).
  { eapply Permutation_NoDup; [symmetry; apply sort_by_perm|apply keys_NoDup]. }
  induction Hk as [|q ks Hq _ IH]; simpl; [constructor|].
  destruct (1 <? nunique q (df p)); [|exact IH].
  simpl. constructor; [|exact IH].
  intros Hin. apply Hq. apply in_map_iff in Hin as (c & <- & Hc).
  apply filter_In in Hc as [Hc _]. apply in_map_iff in Hc as (q' & <- & Hq').
  exact Hq'.
Qed.

(** X8. The exclusion and the floor on impressions may be applied in
    either order: the retained rows are the same, only the count of the
    rows dropped for low impressions depends on the order. *)
Theorem exclusion_and_floor_commute (query_to_remove : string) (rows : list Row) :
  let terms := parse_queries_to_remove query_to_remove in
  f_df (filter_exclude query_to_remove rows) =
    remove_queries terms (drop_low_impressions rows).
Proof.
  intros terms. unfold filter_exclude. cbn [f_df]. fold terms.
  rewrite !remove_queries_filter. unfold drop_low_impressions.
  induction rows as [|r rows IH]; [reflexivity|]. cbn [filter].
  destruct (negb (isin (Query r) terms)) eqn:E1, (10 <=? Impressions r) eqn:E2;
    cbn [filter]; rewrite ?E1, ?E2, ?IH; reflexivity.
Qed.

(** X9. An exclusion text with nothing but blanks between its commas
    excludes nothing: the list of terms is empty and only the floor on
    impressions applies. *)
Theorem blank_terms_exclude_nothing (query_to_remove : string) (rows : list Row) :
  (forall piece, In piece (split_comma query_to_remove) -> strip piece = "") ->
  f_queries_to_remove (filter_exclude query_to_remove rows) = [] /\
  f_df (filter_exclude query_to_remove rows) = drop_low_impressions rows /\
  f_dropped_low_impressions (filter_exclude query_to_remove rows) =
    shape0 (filter (fun r => Impressions r <? 10) rows).
Proof.
  intros Hblank.
  assert (Hterms : parse_queries_to_remove query_to_remove = []).
  { unfold parse_queries_to_remove. destruct (nonempty query_to_remove); [|reflexivity].
    induction (split_comma query_to_remove) as [|piece pieces IH]; [reflexivity|].
    cbn [filter]. rewrite (Hblank piece) by (left; reflexivity).
    cbn. apply IH. intros x Hx. apply Hblank. right. exact Hx. }
  unfold filter_exclude. cbn [f_queries_to_remove f_df f_dropped_low_impressions].
  rewrite Hterms. cbn [remove_queries].
  split; [reflexivity|]. split; [reflexivity|].
  unfold drop_low_impressions. rewrite filter_length_split. f_equal.
  apply filter_ext. intros r. cbv beta. rewrite Z.ltb_antisym. reflexivity.
Qed.

(** X10. After deduplication the landing pages of a query in the final
    table are pairwise distinct, so the number of landing pages the
    ranking counts for a query is the number of its rows in the final
    table whose landing page is present. *)
Theorem landing_pages_are_counted_by_rows
  (frame : DataFrame) (query_to_remove : string) (p : Processed) :
  process frame query_to_remove = Completed p ->
  (forall q, nunique q (df p) =
             shape0 (filter (fun c => negb (isna (out_Landing_Page c)))
                            (group q (df p)))) /\
  (forall c, In c (top_cannibalized p) ->
             c_Landing_Page c =
             shape0 (filter (fun c' => negb (isna (out_Landing_Page c')))
                            (group (c_Query c) (df p)))).
Proof.
  intros Hp.
  pose proof (final_table_NoDup frame query_to_remove p Hp) as Hk.
  split; [intros q; apply nunique_rows; exact Hk|].
  intros c Hc.
  destruct (Completed_inv frame query_to_remove p Hp)
    as (_ & _ & _ & _ & _ & _ & _ & _ & _ & _ & Htop).
  rewrite Htop in Hc. apply rank_In in Hc as (_ & -> & _).
  apply nunique_rows. exact Hk.
Qed.

(** X11. The ranking holds the queries of largest total: a row of the
    final table whose query has several landing pages and is not ranked
    shows a total no larger than that of any ranked query. *)
Theorem unranked_queries_have_smaller_totals
  (frame : DataFrame) (query_to_remove : string) (p : Processed)
  (c : Cannibalized) (r : Cleaned) :
  process frame query_to_remove = Completed p ->
  In c (top_cannibalized p) ->
  In r (df p) ->
  1 < nunique (out_Query r) (df p) ->
  ~ In (hashable (out_Query r)) (map c_Query (top_cannibalized p)) ->
  total_le (out_Total_Keyword_Impressions r) (c_Total_Keyword_Impressions c).
Proof.
  intros Hp Hc Hr Hn Hnot.
  destruct (rank_total frame query_to_remove p c Hp Hc) as [(rc & Hrc & Hqc) Htc].
  destruct (Completed_inv frame query_to_remove p Hp)
    as (_ & _ & _ & _ & _ & _ & _ & _ & _ & _ & Htop).
  assert (Hkc : hashable (c_Query c) = c_Query c).
  { rewrite Htop in Hc. apply rank_In in Hc as (Hq & _). apply (keys_hashable _ _ Hq). }
  rewrite (Htc rc Hrc) by (rewrite Hkc; exact Hqc).
  apply (final_totals_comparable frame query_to_remove p); try assumption.
  rewrite <- (Htc rc Hrc) by (rewrite Hkc; exact Hqc).
  destruct (final_table_total frame query_to_remove p r Hp Hr) as (Hna & _).
  rewrite Htop in Hc, Hnot. unfold rank in Hc, Hnot.
  set (mk := fun q0 => {| c_Query := q0;
                          c_Landing_Page := nunique q0 (df p);
                          c_Total_Keyword_Impressions :=
                            first (map out_Total_Keyword_Impressions (group q0 (df p))) |})
    in *.
  set (leb := fun a b => desc_total (c_Total_Keyword_Impressions a)
                                    (c_Total_Keyword_Impressions b)) in *.
  set (cands := filter (fun c0 => 1 <? c_Landing_Page c0)
                       (map mk (sort_by value_leb (keys (map out_Query (df p)))))) in *.
  assert (Hin : In (mk (hashable (out_Query r))) (sort_by leb cands)).
  { apply sort_by_In. apply filter_In. split.
    - apply in_map. apply sort_by_In. apply keys_In. exists (out_Query r).
      split; [apply in_map; exact Hr|auto].
    - apply Z.ltb_lt. cbn [mk c_Landing_Page]. rewrite nunique_hashable. exact Hn. }
  rewrite <- (firstn_skipn 10 (sort_by leb cands)) in Hin.
  apply in_app_or in Hin as [Hin|Hin].
  { exfalso. apply Hnot. apply (in_map c_Query) in Hin. exact Hin. }
  assert (Hsorted : StronglySorted (fun a b => leb a b = true)
                      (firstn 10 (sort_by leb cands) ++ skipn 10 (sort_by leb cands))).
  { rewrite firstn_skipn. apply (sort_by_sorted Cannibalized leb).
    - intros x y. apply desc_total_total.
    - intros x y z. apply desc_total_trans. }
  pose proof (StronglySorted_app_cross _ _ _ c (mk (hashable (out_Query r)))
                Hsorted Hc Hin) as Hle.
  unfold leb in Hle. cbn [mk c_Total_Keyword_Impressions] in Hle.
  rewrite (group_first frame query_to_remove p (hashable (out_Query r)) r Hp Hr) in Hle
    by (symmetry; apply hashable_idem).
  exact Hle.
Qed.

End Further.

(** * Runs of the model *)

Example shoes_run : process shoes_report "BrandX" = Completed shoes_processed.
Proof. vm_compute. reflexivity. Qed.

Example repeated_run : process repeated_report "" = Completed repeated_processed.
Proof. vm_compute. reflexivity. Qed.

Example eleven_run : process eleven_report "" = Completed eleven_processed.
Proof. vm_compute. reflexivity. Qed.

Example eleven_ranking :
  map c_Query (top_cannibalized eleven_processed) =
  map Str ["q11"; "q10"; "q09"; "q08"; "q07"; "q06"; "q05"; "q04"; "q03"; "q02"].
Proof. vm_compute. reflexivity. Qed.

(** In binary64, 14 / 100 * 100 is above 14, and its ceiling is 15. *)
Example fourteen_of_hundred :
  Float64.ceil_int (percentage 14 (Int64 100)) = Some 15 /\
  Float64.ceil_int (percentage 60 (Int64 100)) = Some 60.
Proof. vm_compute. split; reflexivity. Qed.

Example terms_are_trimmed :
  parse_queries_to_remove " BrandX , ,shoe store,," = ["BrandX"; "shoe store"].
Proof. vm_compute. reflexivity. Qed.

(** A query that contains a term, or differs from it by case, stays, and
    so does a query that is the number a term spells. *)
Example near_matches_stay :
  remove_queries (parse_queries_to_remove "BrandX, 123")
    [ brandx_shoes_row; lower_case_row; brandx_row; number_row ] =
    [ brandx_shoes_row; lower_case_row; number_row ].
Proof. vm_compute. reflexivity. Qed.

(** An infinity among the impressions makes [astype(int)] raise. *)
Example infinity_run :
  main true (Some (Reads infinity_report)) "" =
  [ st_error "❌ An unexpected error occurred: Cannot convert non-finite values (NA or inf) to integer" ].
Proof. vm_compute. reflexivity. Qed.

(** A file that has a column [Total Keyword Impressions] makes line 86
    raise. *)
Example cleaned_run :
  main true (Some (Reads cleaned_report)) "" =
  [ st_error "❌ An unexpected error occurred: 'Total Keyword Impressions'" ].
Proof. vm_compute. reflexivity. Qed.

(** A missing landing page is no page: the query has one page and is not
    ranked. *)
Example missing_page_run :
  main true (Some (Reads missing_page_report)) "" =
  shown_without_ranking
    [ shoes_a;
      {| out_Landing_Page := NaN; out_Query := Str "shoes"; out_Impressions := 40;
         out_Total_Keyword_Impressions := Int64 100;
         out_Percentage_of_Impressions := "40%" |} ].
Proof. vm_compute. reflexivity. Qed.

(** A row without query has no total and falls out of the band; the
    totals of the others are floats. *)
Example missing_query_run :
  exists p, process missing_query_report "" = Completed p /\
    map out_Query (df p) = [Str "shoes"; Str "shoes"] /\
    map out_Total_Keyword_Impressions (df p) =
      [Float64 (Float64.of_int 100); Float64 (Float64.of_int 100)] /\
    map Total_Keyword_Impressions (with_totals (retained missing_query_report "")) =
      [Float64 (Float64.of_int 100); Float64 S754_nan; Float64 (Float64.of_int 100)].
Proof. eexists. vm_compute. repeat split; reflexivity. Qed.

(** A total that has wrapped around is used as it is: of the six rows
    of [q] the one with 12 impressions has a share of 12 in 18. *)
Example wrapped_run :
  exists p, process wrapped_report "" = Completed p /\
    df p = [ {| out_Landing_Page := Str "/f"; out_Query := Str "q";
                out_Impressions := 12;
                out_Total_Keyword_Impressions := Int64 18;
                out_Percentage_of_Impressions := "67%" |} ].
Proof. eexists. vm_compute. split; reflexivity. Qed.

(** No term matches a query that is a number. *)
Example number_run :
  exists p, process number_report "123" = Completed p /\
    queries_to_remove p = ["123"] /\
    map out_Query (df p) = [Int 123; Int 123].
Proof. eexists. vm_compute. repeat split; reflexivity. Qed.

(** ** Witnesses and counterexamples *)




Lemma ranking_of_cannibalized_queries_witness :
  process shoes_report "BrandX" = Completed shoes_processed /\
  StronglySorted total_ge (top_cannibalized shoes_processed) /\
  Forall (fun c =>
            exists r1 r2, In r1 (df shoes_processed) /\ In r2 (df shoes_processed) /\
              hashable (out_Query r1) = c_Query c /\ hashable (out_Query r2) = c_Query c /\
              isna (out_Landing_Page r1) = false /\ isna (out_Landing_Page r2) = false /\
              hashable (out_Landing_Page r1) <> hashable (out_Landing_Page r2))
         (top_cannibalized shoes_processed).
Proof.
  assert (H : process shoes_report "BrandX" = Completed shoes_processed)
    by (vm_compute; reflexivity).
  pose proof (ranking_of_cannibalized_queries shoes_report "BrandX" shoes_processed H)
    as (Hrows & Hsorted & _).
  split; [exact H|]. split; [exact Hsorted|].
  apply Forall_forall. intros c Hc. apply (Hrows c Hc).
Defined.

Lemma exclusion_is_exact_match_witness :
  parse_queries_to_remove " BrandX , 123" = ["BrandX"; "123"] /\
  ~ In brandx_row
       (remove_queries (parse_queries_to_remove " BrandX , 123")
                       [brandx_shoes_row; lower_case_row; brandx_row; number_row]) /\
  In number_row
     (remove_queries (parse_queries_to_remove " BrandX , 123")
                     [brandx_shoes_row; lower_case_row; brandx_row; number_row]).
Proof.
  pose proof (exclusion_is_exact_match " BrandX , 123"
                [brandx_shoes_row; lower_case_row; brandx_row; number_row])
    as (_ & _ & _ & _ & Hkept & Hremoved).
  split; [vm_compute; reflexivity|]. split.
  - apply (Hremoved brandx_row); [simpl; auto|].
    exists "BrandX". split; [vm_compute; auto|reflexivity].
  - apply Hkept. split; [simpl; auto|]. intros t _ Ht. discriminate.
Defined.

(** C4, as the claim has it, fails: in a file whose queries are all
    numbers the column is read as integers, and the rows of the query
    123 stay though the term is 123. *)
Lemma a_number_is_not_excluded :
  parse_queries_to_remove "123" = ["123"] /\
  map Query (remove_queries (parse_queries_to_remove "123") (normalized number_report)) =
    [Int 123; Int 123] /\
  excluded "123" (normalized number_report) = 0.
Proof. vm_compute. repeat split; reflexivity. Qed.

Lemma missing_columns_stop_the_run_witness :
  missing_columns narrow_report <> [] /\
  process narrow_report "BrandX" = Stopped ["Impressions"; "Landing Page"].
Proof.
  assert (H : missing_columns narrow_report <> []) by (vm_compute; discriminate).
  split; [exact H|].
  exact (proj1 (missing_columns_stop_the_run narrow_report "BrandX" H)).
Defined.

Lemma one_row_per_query_and_page_witness :
  process repeated_report "" = Completed repeated_processed /\
  NoDup (map key_of (df repeated_processed)).
Proof.
  assert (H : process repeated_report "" = Completed repeated_processed)
    by (vm_compute; reflexivity).
  split; [exact H|].
  exact (proj1 (one_row_per_query_and_page repeated_report "" repeated_processed H)).
Defined.


Lemma no_usable_row_gives_an_empty_table_witness :
  missing_columns unusable_report = [] /\
  shape0 (records unusable_report) = 1 /\
  normalize unusable_report = Some [] /\
  main true (Some (Reads unusable_report)) "BrandX" = shown_without_ranking [].
Proof.
  assert (Hm : missing_columns unusable_report = []) by (vm_compute; reflexivity).
  assert (Hall : forall rec, In rec (records unusable_report) ->
                   not_a_number (impressions_cell unusable_report rec) = true).
  { intros rec [<-|[]]. vm_compute. reflexivity. }
  pose proof (no_usable_row_gives_an_empty_table unusable_report "BrandX" Hm Hall)
    as (Hn & Hdone & _).
  split; [exact Hm|]. split; [reflexivity|]. split; [exact Hn|].
  apply Hdone. vm_compute. reflexivity.
Defined.


(** C8, as the claim has it, fails: the row of [BrandX] is removed by the
    exclusion term, yet lines 68 to 78 leave the same values as for a
    table with no row, where nothing is removed; no count of the rows the
    terms match is among them. *)
Lemma exclusion_count_is_not_returned :
  filter_exclude "BrandX" [brandx_row] = filter_exclude "BrandX" [] /\
  excluded "BrandX" [brandx_row] = 1 /\
  excluded "BrandX" [] = 0.
Proof. vm_compute. repeat split; reflexivity. Qed.

(** C9, as the claim has it, fails: the only row of [unusable_report] is
    dropped by normalization, and what is shown is the success, the empty
    table and the information that no query is cannibalized; no error. *)
Lemma zero_usable_rows_is_no_error :
  normalize unusable_report = Some [] /\
  main true (Some (Reads unusable_report)) "" = shown_without_ranking [] /\
  existsb is_error (main true (Some (Reads unusable_report)) "") = false.
Proof. vm_compute. repeat split; reflexivity. Qed.

(** ** Witnesses of the further properties *)

Lemma final_table_is_sorted_by_total_witness :
  process eleven_report "" = Completed eleven_processed /\
  StronglySorted out_total_ge (df eleven_processed).
Proof.
  assert (H : process eleven_report "" = Completed eleven_processed)
    by (vm_compute; reflexivity).
  split; [exact H|].
  exact (proj1 (final_table_is_sorted_by_total eleven_report "" eleven_processed H)).
Defined.


Lemma error_is_shown_alone_witness :
  In (st_error "❌ Please upload a CSV file before submitting.")
     (main true None "BrandX") /\
  main true None "BrandX" =
    [ st_error "❌ Please upload a CSV file before submitting." ].
Proof.
  assert (H : In (st_error "❌ Please upload a CSV file before submitting.")
                 (main true None "BrandX"))
    by (left; reflexivity).
  split; [exact H|].
  exact (error_is_shown_alone true None "BrandX" _ H).
Defined.

Lemma every_record_is_accounted_for_witness :
  process repeated_report "" = Completed repeated_processed /\
  shape0 (records repeated_report) =
    dropped_non_numeric repeated_processed
    + excluded "" (normalized repeated_report)
    + dropped_low_impressions repeated_processed
    + shape0 (retained repeated_report "").
Proof.
  assert (H : process repeated_report "" = Completed repeated_processed)
    by (vm_compute; reflexivity).
  split; [exact H|].
  exact (every_record_is_accounted_for repeated_report "" repeated_processed H).
Defined.

Lemma final_rows_come_from_the_report_witness :
  process shoes_report "BrandX" = Completed shoes_processed /\
  In shoes_a (df shoes_processed) /\
  10 <= out_Impressions shoes_a /\
  isna (out_Query shoes_a) = false /\
  (forall t, In t (queries_to_remove shoes_processed) -> out_Query shoes_a <> Str t).
Proof.
  assert (H : process shoes_report "BrandX" = Completed shoes_processed)
    by (vm_compute; reflexivity).
  assert (Hc : In shoes_a (df shoes_processed)) by (left; reflexivity).
  split; [exact H|]. split; [exact Hc|].
  exact (proj2 (final_rows_come_from_the_report shoes_report "BrandX"
                  shoes_processed shoes_a H Hc)).
Defined.

Lemma a_final_row_shares_its_query_witness :
  process shoes_report "BrandX" = Completed shoes_processed /\
  In shoes_a (df shoes_processed) /\
  10 <= out_Impressions shoes_a /\
  2 <= shape0 (filter (fun r => value_eqb (Query r) (out_Query shoes_a))
                      (retained shoes_report "BrandX")).
Proof.
  assert (H : process shoes_report "BrandX" = Completed shoes_processed)
    by (vm_compute; reflexivity).
  assert (Hc : In shoes_a (df shoes_processed)) by (left; reflexivity).
  split; [exact H|]. split; [exact Hc|].
  exact (a_final_row_shares_its_query shoes_report "BrandX"
           shoes_processed shoes_a H Hc).
Defined.

Lemma ranked_queries_are_distinct_witness :
  process eleven_report "" = Completed eleven_processed /\
  NoDup (map c_Query (top_cannibalized eleven_processed)).
Proof.
  assert (H : process eleven_report "" = Completed eleven_processed)
    by (vm_compute; reflexivity).
  split; [exact H|].
  exact (ranked_queries_are_distinct eleven_report "" eleven_processed H).
Defined.

Lemma blank_terms_exclude_nothing_witness :
  (forall piece, In piece (split_comma " , ") -> strip piece = "") /\
  f_df (filter_exclude " , " [brandx_row]) = drop_low_impressions [brandx_row].
Proof.
  assert (H : forall piece, In piece (split_comma " , ") -> strip piece = "").
  { intros piece [<-|[<-|[]]]; vm_compute; reflexivity. }
  split; [exact H|].
  exact (proj1 (proj2 (blank_terms_exclude_nothing " , " [brandx_row] H))).
Defined.

Lemma landing_pages_are_counted_by_rows_witness :
  process eleven_report "" = Completed eleven_processed /\
  Forall (fun c => c_Landing_Page c =
                   shape0 (filter (fun c' => negb (isna (out_Landing_Page c')))
                                  (group (c_Query c) (df eleven_processed))))
         (top_cannibalized eleven_processed).
Proof.
  assert (H : process eleven_report "" = Completed eleven_processed)
    by (vm_compute; reflexivity).
  split; [exact H|]. apply Forall_forall.
  exact (proj2 (landing_pages_are_counted_by_rows eleven_report ""
                  eleven_processed H)).
Defined.

Lemma unranked_queries_have_smaller_totals_witness :
  process eleven_report "" = Completed eleven_processed /\
  In q11_ranked (top_cannibalized eleven_processed) /\
  In q01_a (df eleven_processed) /\
  ~ In (hashable (out_Query q01_a)) (map c_Query (top_cannibalized eleven_processed)) /\
  total_le (out_Total_Keyword_Impressions q01_a) (c_Total_Keyword_Impressions q11_ranked).
Proof.
  assert (H : process eleven_report "" = Completed eleven_processed)
    by (vm_compute; reflexivity).
  assert (Hc : In q11_ranked (top_cannibalized eleven_processed))
    by (vm_compute; left; reflexivity).
  assert (Hr : In q01_a (df eleven_processed)).
  { vm_compute. do 20 right. left. reflexivity. }
  assert (Hn : 1 < nunique (out_Query q01_a) (df eleven_processed))
    by (vm_compute; reflexivity).
  assert (Hnot : ~ In (hashable (out_Query q01_a))
                      (map c_Query (top_cannibalized eleven_processed))).
  { intros Hin. apply (proj2 (mem_value_In _ _)) in Hin. vm_compute in Hin. discriminate. }
  split; [exact H|]. split; [exact Hc|]. split; [exact Hr|]. split; [exact Hnot|].
  exact (unranked_queries_have_smaller_totals eleven_report "" eleven_processed
           q11_ranked q01_a H Hc Hr Hn Hnot).
Defined.
